(** * Sharp Gaussian Splat web application: the FastAPI back end

    A shallow embedding of [webapp/app.py] and the properties of its
    request handlers.  The handlers are glue around the [sharp] library,
    [torch], [PIL] and the operating system; those collaborators are an
    interface ([Sharp]) whose operations run on a hidden external state and
    may raise.  The Python globals, the two session dictionaries and the
    temporary files are explicit state. *)

From Stdlib Require Import ZArith Floats Uint63 List Lia.
From stdpp Require Import base option list gmap strings.

Open Scope Z_scope.

(** ** Python values *)

(** [torch.device] as [get_device] can build it. *)
Inductive Device := cuda | mps | cpu.

Definition device_str (d : Device) : string :=
  match d with cuda => "cuda" | mps => "mps" | cpu => "cpu" end.

(** Exceptions: the framework's [HTTPException] and every other
    [Exception], carrying its text. *)
Inductive exn :=
| HTTPException (status_code : Z) (detail : string)
| Exception (msg : string).

(** The character written as a backslash-free double quote in the
    f-strings of the source. *)
Definition dquote : string :=
  String (Ascii.Ascii false true false false false true false false) EmptyString.

(** [SceneMetaData(focal_length_px, resolution_px, color_space)]. *)
Record SceneMetaData := mkSceneMetaData {
  focal_length_px : float;
  resolution_px : Z * Z;
  color_space : string
}.

(** The body of the upload handler's JSON answer. *)
Record UploadJson := mkUploadJson {
  session_id : string;
  width : Z;
  height : Z;
  focal_length : float;
  ply_path : string
}.

Inductive Response :=
| JSONUpload (body : UploadJson)
| JSONCheck (cuda_available : bool) (device_name : string)
| FileResponse (path : string) (media_type : string)
    (headers : list (string * string)).

(** What a handler hands to the framework: a response or an exception. *)
Definition Result := (exn + Response)%type.

(** The HTTP status the framework sends: 200 for a response, the status of
    an [HTTPException], 500 for any other exception. *)
Definition status (r : Result) : Z :=
  match r with
  | inr _ => 200
  | inl (HTTPException s _) => s
  | inl (Exception _) => 500
  end.

(** A record of one call into a collaborator.  [Uuid4] keeps the value that
    [uuid.uuid4()] returned. *)
Inductive Event :=
| Lib (fn : string)
| Uuid4 (u : string).

(** ** Python numbers *)

(** Conversion of a Python [int] to a [float]: round to nearest even.
    Integers of at most 63 bits go through the machine conversion; larger
    ones keep their 63 leading bits with a sticky last bit and are scaled
    back.  Python raises [OverflowError] where the result is infinite. *)
Definition float_of_nonneg (z : Z) : float :=
  if z <? 2 ^ 63 then PrimFloat.of_uint63 (Uint63.of_Z z)
  else
    let k := Z.log2 z - 62 in
    let m := Z.shiftr z k in
    let m' := if Z.land z (Z.ones k) =? 0 then m else Z.lor m 1 in
    Z.ldexp (PrimFloat.of_uint63 (Uint63.of_Z m')) k.

Definition float_of_int (z : Z) : exn + float :=
  let f := match z with
           | Z0 => PrimFloat.zero
           | Zpos _ => float_of_nonneg z
           | Zneg p => PrimFloat.opp (float_of_nonneg (Zpos p))
           end in
  if PrimFloat.is_infinity f
  then inl (Exception "int too large to convert to float")
  else inr f.

(** [np.pi]. *)
Definition np_pi : float := 0x1.921fb54442d18p+1%float.

(** ** The collaborators *)

(** An operation of a collaborator: it reads and changes the state outside
    the Python globals (random numbers, network, GPU, allocator) and either
    returns or raises. *)
Definition ExtOp (Ext A : Type) : Type := Ext -> (exn + A) * Ext.

Class Sharp := {
  Ext : Type;
  PILImage : Type;
  NDArray : Type;
  Tensor : Type;
  StateDict : Type;
  Predictor : Type;
  Gaussians3D : Type;
  CameraModel : Type;
  TrajectoryParams : Type;

  (** torch *)
  cuda_is_available : Ext -> bool;
  (** [torch.backends.mps.is_available()]; [None] is the [AttributeError]
      of a build without that back end. *)
  mps_is_available : Ext -> option bool;
  load_state_dict_from_url : string -> ExtOp Ext StateDict;
  (** [torch.from_numpy(image.copy()).float().to(device).permute(2, 0, 1) / 255.0] *)
  image_to_tensor : NDArray -> Device -> ExtOp Ext Tensor;
  (** [torch.tensor(rows)], with [.float()], [device=] and [.to(device)]
      where the source has them: a float32 tensor on [device]. *)
  torch_tensor : list (list float) -> option Device -> ExtOp Ext Tensor;
  (** The same for a flat list. *)
  torch_tensor1 : list float -> option Device -> ExtOp Ext Tensor;
  (** [F.interpolate(x[None], size=size, mode="bilinear", align_corners=True)] *)
  interpolate : Tensor -> Z * Z -> ExtOp Ext Tensor;
  tensor_clone : Tensor -> ExtOp Ext Tensor;
  (** [t[i] *= s] *)
  scale_row : Tensor -> Z -> float -> ExtOp Ext Tensor;
  (** [torch.eye(n).to(device)] *)
  torch_eye : Z -> Device -> ExtOp Ext Tensor;
  (** [t[None].to(device)] *)
  batch_to : Tensor -> Device -> ExtOp Ext Tensor;
  (** [t.to(device)] *)
  tensor_to : Tensor -> Device -> ExtOp Ext Tensor;
  (** [(color[0].permute(1, 2, 0) * 255.0).to(dtype=torch.uint8)] *)
  color_to_uint8 : Tensor -> ExtOp Ext Tensor;
  (** [(color[0].permute(1, 2, 0).detach().cpu().numpy() * 255.0).astype(np.uint8)] *)
  color_to_numpy : Tensor -> ExtOp Ext NDArray;
  (** [depth[0]] *)
  first_of_batch : Tensor -> ExtOp Ext Tensor;

  (** numpy and PIL *)
  np_sin : float -> float;
  np_cos : float -> float;
  Image_open : list Byte.byte -> ExtOp Ext PILImage;
  (** [np.array(image_pil.convert("RGB"))] *)
  rgb_array : PILImage -> ExtOp Ext NDArray;
  (** [image_np.shape[:2]]: height first. *)
  shape2 : NDArray -> Z * Z;

  (** uuid, tempfile, the module's directory *)
  uuid4 : Ext -> string * Ext;
  module_dir : string;
  gettempdir : string;
  (** The name chosen by [tempfile.NamedTemporaryFile(delete=False, suffix=s)]. *)
  NamedTemporaryFile : string -> ExtOp Ext string;

  (** sharp *)
  create_predictor : ExtOp Ext Predictor;
  load_state_dict : Predictor -> StateDict -> ExtOp Ext Predictor;
  predictor_eval : Predictor -> ExtOp Ext Predictor;
  predictor_to : Predictor -> Device -> ExtOp Ext Predictor;
  predictor_forward : Predictor -> Tensor -> Tensor -> ExtOp Ext Gaussians3D;
  unproject_gaussians :
    Gaussians3D -> Tensor -> Tensor -> Z * Z -> ExtOp Ext Gaussians3D;
  gaussians_to : Gaussians3D -> Device -> ExtOp Ext Gaussians3D;
  convert_focallength : Z -> Z -> float -> float;
  save_ply : Gaussians3D -> float -> Z * Z -> string -> ExtOp Ext unit;
  save_image : NDArray -> string -> ExtOp Ext unit;
  make_trajectory_params : string -> Z -> Z -> float -> TrajectoryParams;
  compute_max_offset :
    Gaussians3D -> TrajectoryParams -> Z * Z -> float ->
    ExtOp Ext (float * float * float);
  create_camera_model :
    Gaussians3D -> Tensor -> Z * Z -> ExtOp Ext CameraModel;
  (** [camera_model.compute(eye)]: extrinsics, intrinsics, width, height. *)
  camera_compute :
    CameraModel -> Tensor -> ExtOp Ext (Tensor * Tensor * Z * Z);
  GSplatRenderer : string -> ExtOp Ext unit;
  (** [renderer(gaussians, extrinsics=, intrinsics=, image_width=,
      image_height=)] for the renderer of a colour space: colour, depth. *)
  renderer_call :
    string -> Gaussians3D -> Tensor -> Tensor -> Z -> Z ->
    ExtOp Ext (Tensor * Tensor);
  VideoWriter : string -> ExtOp Ext unit;
  add_frame : Tensor -> Tensor -> ExtOp Ext unit;
  writer_close : ExtOp Ext unit;

  (** [str(e)] of the framework's [HTTPException]. *)
  http_exception_str : Z -> string -> string
}.

Definition exn_str `{Sharp} (e : exn) : string :=
  match e with
  | HTTPException s d => http_exception_str s d
  | Exception msg => msg
  end.

(** Python's [a / b] on two [int]s whose conversions are exact (below
    2^53 in absolute value, as every operand of the source is: step
    counts, the internal shape and the sides of a decoded image). *)
Definition int_truediv (a b : Z) : exn + float :=
  if b =? 0 then inl (Exception "division by zero")
  else
    match float_of_int a, float_of_int b with
    | inr x, inr y => inr (PrimFloat.div x y)
    | inl e, _ | _, inl e => inl e
    end.

(** ** Process state *)

Section App.
Context `{L : Sharp}.

(** What a temporary file holds. *)
Inductive FileData :=
| FEmpty
| FPly (g : Gaussians3D) (f_px : float) (image_shape : Z * Z)
| FPng (image : NDArray)
| FVideo (frames : list (Tensor * Tensor)).

(** The module's globals ([predictor], [device], [gaussian_storage],
    [ply_storage]), the files on disk, the state of the collaborators and
    the calls made into them so far. *)
Record World := mkWorld {
  predictor : option Predictor;
  device : option Device;
  gaussian_storage : gmap string (Gaussians3D * SceneMetaData);
  ply_storage : gmap string string;
  fs : gmap string FileData;
  ext : Ext;
  calls : list Event
}.

Definition set_predictor (p : option Predictor) (w : World) : World :=
  mkWorld p (device w) (gaussian_storage w) (ply_storage w) (fs w) (ext w) (calls w).
Definition set_device (d : option Device) (w : World) : World :=
  mkWorld (predictor w) d (gaussian_storage w) (ply_storage w) (fs w) (ext w) (calls w).
Definition set_gaussian_storage
    (g : gmap string (Gaussians3D * SceneMetaData)) (w : World) : World :=
  mkWorld (predictor w) (device w) g (ply_storage w) (fs w) (ext w) (calls w).
Definition set_ply_storage (p : gmap string string) (w : World) : World :=
  mkWorld (predictor w) (device w) (gaussian_storage w) p (fs w) (ext w) (calls w).
Definition set_fs (f : gmap string FileData) (w : World) : World :=
  mkWorld (predictor w) (device w) (gaussian_storage w) (ply_storage w) f (ext w) (calls w).
Definition set_ext (e : Ext) (ev : Event) (w : World) : World :=
  mkWorld (predictor w) (device w) (gaussian_storage w) (ply_storage w) (fs w) e
    (calls w ++ [ev]).

(** ** Statements: state and exceptions *)

(** A block of Python: from a state to a value or a raised exception, and
    the state left behind.  What was assigned before a [raise] stays. *)
Definition M (A : Type) : Type := World -> (exn + A) * World.

Definition ret {A} (a : A) : M A := fun w => (inr a, w).
Definition raise {A} (e : exn) : M A := fun w => (inl e, w).
Definition bind {A B} (m : M A) (k : A -> M B) : M B :=
  fun w => match m w with
           | (inr a, w') => k a w'
           | (inl e, w') => (inl e, w')
           end.

(** [try: m except Exception as e: h e]. *)
Definition try_except {A} (m : M A) (h : exn -> M A) : M A :=
  fun w => match m w with
           | (inr a, w') => (inr a, w')
           | (inl e, w') => h e w'
           end.

Definition get : M World := fun w => (inr w, w).
Definition modify (f : World -> World) : M unit := fun w => (inr tt, f w).

(** A value or exception computed without touching the state. *)
Definition lift {A} (r : exn + A) : M A := fun w => (r, w).

(** A call into a collaborator, recorded under its name. *)
Definition call {A} (fn : string) (op : ExtOp Ext A) : M A :=
  fun w => let '(r, e) := op (ext w) in (r, set_ext e (Lib fn) w).

(** [uuid.uuid4()], as a string. *)
Definition call_uuid4 : M string :=
  fun w => let '(u, e) := uuid4 (ext w) in (inr u, set_ext e (Uuid4 u) w).

(** [Path.exists()]. *)
Definition path_exists (p : string) : M bool :=
  fun w => (inr (bool_decide (is_Some (fs w !! p))), w).

(** What a collaborator leaves on disk once it has returned normally. *)
Definition write_file (p : string) (d : FileData) : M unit :=
  modify (fun w => set_fs (<[p := d]> (fs w)) w).

End App.

Declare Scope py_scope.
Delimit Scope py_scope with py.
Notation "x <- m ;; k" := (bind m (fun x => k))
  (at level 100, m at next level, right associativity) : py_scope.
Notation "m ;; k" := (bind m (fun _ => k))
  (at level 100, right associativity) : py_scope.
Open Scope py_scope.

(** ** The module *)

Section Handlers.
Context `{L : Sharp}.

Definition DEFAULT_MODEL_URL : string :=
  "https://ml-site.cdn-apple.com/models/sharp/sharp_2572gikvuh.pt".

(** [get_device]: CUDA, else MPS, else CPU. *)
Definition get_device : M Device :=
  w <- get ;;
  if cuda_is_available (ext w) then ret cuda
  else match mps_is_available (ext w) with
       | Some true => ret mps
       | Some false | None => ret cpu
       end.

(** [load_model]. *)
Definition load_model : M unit :=
  w <- get ;;
  match predictor w with
  | Some _ => ret tt
  | None =>
    d <- get_device ;;
    modify (set_device (Some d)) ;;
    state_dict <-
      try_except
        (call "torch.hub.load_state_dict_from_url"
           (load_state_dict_from_url DEFAULT_MODEL_URL))
        (fun e => raise e) ;;
    gaussian_predictor <- call "create_predictor" create_predictor ;;
    gaussian_predictor <-
      call "load_state_dict" (load_state_dict gaussian_predictor state_dict) ;;
    gaussian_predictor <- call "eval" (predictor_eval gaussian_predictor) ;;
    gaussian_predictor <- call "to" (predictor_to gaussian_predictor d) ;;
    modify (set_predictor (Some gaussian_predictor))
  end.

(** [startup_event]. *)
Definition startup_event : M unit := load_model.

(** [root]; the source names no media type, written as the empty string. *)
Definition root : M Response :=
  let static_dir := module_dir +:+ "/static" in
  ret (FileResponse (static_dir +:+ "/index.html") "" []).

(** [check_system]. *)
Definition check_system : M Response :=
  w <- get ;;
  ret (JSONCheck (cuda_is_available (ext w))
         (match device w with Some d => device_str d | None => "unknown" end)).

(** [get_ply]. *)
Definition get_ply (session_id : string) : M Response :=
  w <- get ;;
  match ply_storage w !! session_id with
  | None => raise (HTTPException 404 "PLY file not found")
  | Some ply_path =>
    present <- path_exists ply_path ;;
    if negb present
    then raise (HTTPException 404 "PLY file does not exist")
    else ret (FileResponse ply_path "application/octet-stream"
                [("Content-Disposition",
                  "attachment; filename=" +:+ dquote +:+ "gaussians_"
                    +:+ session_id +:+ ".ply" +:+ dquote)])
  end.

Definition internal_shape : Z * Z := (1536, 1536).

(** [predict_image].  [f_px] is the numpy float that
    [convert_focallength] returned, so [f_px / width] is the IEEE
    quotient. *)
Definition predict_image (predictor_model : option Predictor) (image : NDArray)
    (f_px : float) (dev : Device) : M Gaussians3D :=
  image_pt <- call "torch.from_numpy" (image_to_tensor image dev) ;;
  let '(height, width) := shape2 image in
  width_f <- lift (float_of_int width) ;;
  disparity_factor <-
    call "torch.tensor" (torch_tensor1 [PrimFloat.div f_px width_f] (Some dev)) ;;
  image_resized_pt <-
    call "F.interpolate"
      (interpolate image_pt (snd internal_shape, fst internal_shape)) ;;
  gaussians_ndc <-
    match predictor_model with
    | Some p =>
      call "predictor" (predictor_forward p image_resized_pt disparity_factor)
    | None => raise (Exception "'NoneType' object is not callable")
    end ;;
  cx <- lift (int_truediv width 2) ;;
  cy <- lift (int_truediv height 2) ;;
  intrinsics <-
    call "torch.tensor"
      (torch_tensor
         [[f_px; 0; cx; 0]; [0; f_px; cy; 0]; [0; 0; 1; 0]; [0; 0; 0; 1]]%float
         (Some dev)) ;;
  intrinsics_resized <- call "clone" (tensor_clone intrinsics) ;;
  s0 <- lift (int_truediv (fst internal_shape) width) ;;
  intrinsics_resized <- call "mul_" (scale_row intrinsics_resized 0 s0) ;;
  s1 <- lift (int_truediv (snd internal_shape) height) ;;
  intrinsics_resized <- call "mul_" (scale_row intrinsics_resized 1 s1) ;;
  eye <- call "torch.eye" (torch_eye 4 dev) ;;
  call "unproject_gaussians"
    (unproject_gaussians gaussians_ndc eye intrinsics_resized internal_shape).

(** [JSONResponse(content)] of the upload handler: the framework encodes
    the body at once and refuses a float that is not finite. *)
Definition JSONResponse (body : UploadJson) : M Response :=
  if PrimFloat.is_nan (focal_length body) || PrimFloat.is_infinity (focal_length body)
  then raise (Exception "Out of range float values are not JSON compliant")
  else ret (JSONUpload body).

(** [upload_image], on the bytes read from the uploaded file. *)
Definition upload_image (contents : list Byte.byte) : M Response :=
  try_except
    (image_pil <- call "Image.open" (Image_open contents) ;;
     image_np <- call "np.array" (rgb_array image_pil) ;;
     let '(height, width) := shape2 image_np in
     let f_px := convert_focallength width height 30%float in
     session_id <- call_uuid4 ;;
     w <- get ;;
     match device w with
     | None => raise (HTTPException 500 "Device not initialized")
     | Some dev =>
       gaussians <- predict_image (predictor w) image_np f_px dev ;;
       let metadata := mkSceneMetaData f_px (width, height) "linearRGB" in
       modify (fun w => set_gaussian_storage
                 (<[session_id := (gaussians, metadata)]> (gaussian_storage w)) w) ;;
       tmp_name <- call "tempfile.NamedTemporaryFile" (NamedTemporaryFile ".ply") ;;
       write_file tmp_name FEmpty ;;
       let ply_path := tmp_name in
       call "save_ply" (save_ply gaussians f_px (height, width) ply_path) ;;
       write_file ply_path (FPly gaussians f_px (height, width)) ;;
       modify (fun w => set_ply_storage
                 (<[session_id := ply_path]> (ply_storage w)) w) ;;
       JSONResponse
         (mkUploadJson session_id width height f_px ("/api/ply/" +:+ session_id))
     end)
    (fun e => raise (HTTPException 500 (exn_str e))).

(** Lines 142 to 159 of [upload_image]: from the bytes to the predicted
    gaussians.  Returns the session id, width, height, focal length and
    gaussians. *)
Definition upload_predict (contents : list Byte.byte)
    : M (string * Z * Z * float * Gaussians3D) :=
  image_pil <- call "Image.open" (Image_open contents) ;;
  image_np <- call "np.array" (rgb_array image_pil) ;;
  let '(height, width) := shape2 image_np in
  let f_px := convert_focallength width height 30%float in
  session_id <- call_uuid4 ;;
  w <- get ;;
  match device w with
  | None => raise (HTTPException 500 "Device not initialized")
  | Some dev =>
    gaussians <- predict_image (predictor w) image_np f_px dev ;;
    ret (session_id, width, height, f_px, gaussians)
  end.

(** Lines 161 to 179 of [upload_image]: store, export, answer. *)
Definition upload_store (session_id : string) (width height : Z) (f_px : float)
    (gaussians : Gaussians3D) : M Response :=
  let metadata := mkSceneMetaData f_px (width, height) "linearRGB" in
  modify (fun w => set_gaussian_storage
            (<[session_id := (gaussians, metadata)]> (gaussian_storage w)) w) ;;
  tmp_name <- call "tempfile.NamedTemporaryFile" (NamedTemporaryFile ".ply") ;;
  write_file tmp_name FEmpty ;;
  let ply_path := tmp_name in
  call "save_ply" (save_ply gaussians f_px (height, width) ply_path) ;;
  write_file ply_path (FPly gaussians f_px (height, width)) ;;
  modify (fun w => set_ply_storage
            (<[session_id := ply_path]> (ply_storage w)) w) ;;
  JSONResponse
    (mkUploadJson session_id width height f_px ("/api/ply/" +:+ session_id)).

(** The pinhole intrinsics both renderers build:
    [[f_px, 0, (width - 1) / 2.0, 0], [0, f_px, (height - 1) / 2.0, 0],
     [0, 0, 1, 0], [0, 0, 0, 1]]. *)
Definition pinhole_rows (f_px : float) (width height : Z) : exn + list (list float) :=
  match float_of_int (width - 1) with
  | inl e => inl e
  | inr w1 =>
    match float_of_int (height - 1) with
    | inl e => inl e
    | inr h1 =>
      inr [[f_px; 0; PrimFloat.div w1 2; 0]; [0; f_px; PrimFloat.div h1 2; 0];
           [0; 0; 1; 0]; [0; 0; 0; 1]]%float
    end
  end.

(** [render_view]. *)
Definition render_view (session_id : string) (eye_x eye_y eye_z : float)
    (width height : Z) : M Response :=
  w <- get ;;
  match gaussian_storage w !! session_id with
  | None => raise (HTTPException 404 "Session not found")
  | Some (gaussians, metadata) =>
    if negb (cuda_is_available (ext w))
    then raise (HTTPException 503
      "Rendering requires CUDA GPU. Server-side rendering is not available on this system.")
    else
      try_except
        (let render_device := cuda in
         let f_px := focal_length_px metadata in
         rows <- lift (pinhole_rows f_px width height) ;;
         intrinsics <- call "torch.tensor" (torch_tensor rows (Some render_device)) ;;
         camera_model <-
           call "create_camera_model"
             (create_camera_model gaussians intrinsics (width, height)) ;;
         eye_position <-
           call "torch.tensor" (torch_tensor1 [eye_x; eye_y; eye_z] None) ;;
         camera_info <- call "compute" (camera_compute camera_model eye_position) ;;
         let '(extrinsics, cam_intrinsics, _, _) := camera_info in
         call "GSplatRenderer" (GSplatRenderer (color_space metadata)) ;;
         g <- call "to" (gaussians_to gaussians render_device) ;;
         ex <- call "to" (batch_to extrinsics render_device) ;;
         intr <- call "to" (batch_to cam_intrinsics render_device) ;;
         rendering_output <-
           call "renderer"
             (renderer_call (color_space metadata) g ex intr width height) ;;
         color_np <- call "numpy" (color_to_numpy (fst rendering_output)) ;;
         u <- call_uuid4 ;;
         let tmp_path := gettempdir +:+ "/sharp_render_" +:+ u +:+ ".png" in
         call "save_image" (save_image color_np tmp_path) ;;
         write_file tmp_path (FPng color_np) ;;
         ret (FileResponse tmp_path "image/png" [("Cache-Control", "no-cache")]))
        (fun e => raise (HTTPException 500 (exn_str e)))
  end.

(** The rotation parameter of step [i]:
    [t = (i / (num_steps - 1) - 0.5) * 0.5]. *)
Definition trajectory_t (num_steps i : Z) : exn + float :=
  match int_truediv i (num_steps - 1) with
  | inl e => inl e
  | inr q => inr (PrimFloat.mul (PrimFloat.sub q 0.5) 0.5)
  end.

(** The eye position at parameter [t]:
    [x = max_offset[0] * np.sin(2 * np.pi * t)],
    [y = max_offset[1] * np.cos(2 * np.pi * t)], [z = 0.0]. *)
Definition eye_at (max_offset : float * float * float) (t : float) : list float :=
  let x := PrimFloat.mul (fst (fst max_offset))
             (np_sin (PrimFloat.mul (PrimFloat.mul 2 np_pi) t)) in
  let y := PrimFloat.mul (snd (fst max_offset))
             (np_cos (PrimFloat.mul (PrimFloat.mul 2 np_pi) t)) in
  let z := 0%float in
  [x; y; z].

(** The first loop of [generate_video]: [for i in range(num_steps)],
    appending one float32 tensor per step. *)
Fixpoint build_trajectory (max_offset : float * float * float) (num_steps : Z)
    (steps : list Z) (trajectory : list Tensor) : M (list Tensor) :=
  match steps with
  | [] => ret trajectory
  | i :: steps' =>
    t <- lift (trajectory_t num_steps i) ;;
    p <- call "torch.tensor" (torch_tensor1 (eye_at max_offset t) None) ;;
    build_trajectory max_offset num_steps steps' (trajectory ++ [p])
  end.

(** The second loop: [for i, eye_position in enumerate(trajectory)], one
    [add_frame] per position.  [frames] is what the writer holds. *)
Fixpoint render_frames (gaussians : Gaussians3D) (camera_model : CameraModel)
    (color_space : string) (dev : Device) (trajectory : list Tensor)
    (frames : list (Tensor * Tensor)) : M (list (Tensor * Tensor)) :=
  match trajectory with
  | [] => ret frames
  | eye_position :: trajectory' =>
    eye_tensor <- call "to" (tensor_to eye_position dev) ;;
    camera_info <- call "compute" (camera_compute camera_model eye_tensor) ;;
    let '(extrinsics, cam_intrinsics, cam_width, cam_height) := camera_info in
    g <- call "to" (gaussians_to gaussians dev) ;;
    ex <- call "to" (batch_to extrinsics dev) ;;
    intr <- call "to" (batch_to cam_intrinsics dev) ;;
    rendering_output <-
      call "renderer" (renderer_call color_space g ex intr cam_width cam_height) ;;
    color <- call "to" (color_to_uint8 (fst rendering_output)) ;;
    depth <- call "getitem" (first_of_batch (snd rendering_output)) ;;
    call "add_frame" (add_frame color depth) ;;
    render_frames gaussians camera_model color_space dev trajectory'
      (frames ++ [(color, depth)])
  end.

(** [max_disparity=0.08], the nearest binary64 value. *)
Definition max_disparity : float := 0x1.47ae147ae147bp-4%float.

(** [generate_video]. *)
Definition generate_video (session_id : string) : M Response :=
  w <- get ;;
  match gaussian_storage w !! session_id with
  | None => raise (HTTPException 404 "Session not found")
  | Some (gaussians, metadata) =>
    if negb (cuda_is_available (ext w))
    then raise (HTTPException 503
      "Video generation requires CUDA. Server-side rendering is not available on this system.")
    else
      try_except
        (let '(width, height) := resolution_px metadata in
         let f_px := focal_length_px metadata in
         let params := make_trajectory_params "rotate" 120 1 max_disparity in
         max_offset <-
           call "compute_max_offset"
             (compute_max_offset gaussians params (resolution_px metadata) f_px) ;;
         let num_steps := 120 in
         trajectory <- build_trajectory max_offset num_steps (seqZ 0 num_steps) [] ;;
         video_path <- call "tempfile.NamedTemporaryFile" (NamedTemporaryFile ".mp4") ;;
         write_file video_path FEmpty ;;
         let dev := cuda in
         rows <- lift (pinhole_rows f_px width height) ;;
         intrinsics <- call "torch.tensor" (torch_tensor rows (Some dev)) ;;
         camera_model <-
           call "create_camera_model"
             (create_camera_model gaussians intrinsics (resolution_px metadata)) ;;
         call "GSplatRenderer" (GSplatRenderer (color_space metadata)) ;;
         call "VideoWriter" (VideoWriter video_path) ;;
         frames <-
           render_frames gaussians camera_model (color_space metadata) dev
             trajectory [] ;;
         call "close" writer_close ;;
         write_file video_path (FVideo frames) ;;
         ret (FileResponse video_path "video/mp4"
                [("Content-Disposition",
                  "attachment; filename=" +:+ dquote +:+ "gaussian-rotation-"
                    +:+ session_id +:+ ".mp4" +:+ dquote)]))
        (fun e => raise (HTTPException 500 (exn_str e)))
  end.

(** ** The server *)

(** The routes of the application. *)
Inductive Request :=
| GET_root
| GET_check
| GET_ply (session_id : string)
| POST_upload (contents : list Byte.byte)
| GET_render (session_id : string) (eye_x eye_y eye_z : float) (width height : Z)
| POST_generate_video (session_id : string).

Definition handle (r : Request) : M Response :=
  match r with
  | GET_root => root
  | GET_check => check_system
  | GET_ply sid => get_ply sid
  | POST_upload contents => upload_image contents
  | GET_render sid eye_x eye_y eye_z width height =>
    render_view sid eye_x eye_y eye_z width height
  | POST_generate_video sid => generate_video sid
  end.

(** Requests served one after the other: the answers, oldest first, and
    the state left. *)
Fixpoint serve (rs : list Request) (w : World) : list Result * World :=
  match rs with
  | [] => ([], w)
  | r :: rs' =>
    let '(res, w1) := handle r w in
    let '(ress, w2) := serve rs' w1 in
    (res :: ress, w2)
  end.

(** The state after the module is imported: nothing loaded, no session. *)
Definition imported (files : gmap string FileData) (e : Ext) : World :=
  mkWorld None None ∅ ∅ files e [].

(** The session a render or video request names. *)
Definition rendered_session (r : Request) : option string :=
  match r with
  | GET_render sid _ _ _ _ _ | POST_generate_video sid => Some sid
  | _ => None
  end.

(** The values [uuid.uuid4()] returned in a record of calls. *)
Definition drawn (evs : list Event) : list string :=
  flat_map (fun ev => match ev with Uuid4 u => [u] | Lib _ => [] end) evs.

(** The session ids the upload handler gave out in a list of answers. *)
Definition returned_ids (ress : list Result) : list string :=
  flat_map (fun res => match res with
                       | inr (JSONUpload body) => [session_id body]
                       | _ => []
                       end) ress.

(** ** Vocabulary of the properties *)

(** The number of [add_frame] calls in a record of calls. *)
Definition frames_added (evs : list Event) : nat :=
  length (List.filter
            (fun ev => match ev with
                       | Lib fn => String.eqb fn "add_frame"
                       | Uuid4 _ => false
                       end) evs).

(** The rotation parameter of step [i] as the source writes it, on
    binary64 floats. *)
Definition arc_t (i : Z) : float :=
  PrimFloat.mul
    (PrimFloat.sub (PrimFloat.div (PrimFloat.of_uint63 (Uint63.of_Z i)) 119) 0.5)
    0.5.

(** The eye positions of the 120 steps, computed ahead of the loop. *)
Definition arc_positions (max_offset : float * float * float) : list (list float) :=
  map (fun i => eye_at max_offset (arc_t i)) (seqZ 0 120).

(** One float32 tensor per position, in order, after those given. *)
Fixpoint make_tensors (positions : list (list float)) (tensors : list Tensor)
    : M (list Tensor) :=
  match positions with
  | [] => ret tensors
  | p :: positions' =>
    t <- call "torch.tensor" (torch_tensor1 p None) ;;
    make_tensors positions' (tensors ++ [t])
  end.

(** [m] relates every state to the one it leaves, returning or raising. *)
Definition preserves (R : World -> World -> Prop) {A} (m : M A) : Prop :=
  forall w, R w (snd (m w)).

(** A relation that ignores the globals [predictor] and [device], the
    files, the collaborators' state and the record of calls. *)
Class Frame (R : World -> World -> Prop) := {
  frame_refl : forall w, R w w;
  frame_trans : forall w1 w2 w3, R w1 w2 -> R w2 w3 -> R w1 w3;
  frame_ext : forall w e ev, R w (set_ext e ev w);
  frame_fs : forall w f, R w (set_fs f w);
  frame_device : forall w d, R w (set_device d w);
  frame_predictor : forall w p, R w (set_predictor p w)
}.

(** A frame that also tolerates insertions into the two dictionaries. *)
Class GrowFrame (R : World -> World -> Prop) := {
  grow_frame :: Frame R;
  grow_gaussian : forall w k v,
    R w (set_gaussian_storage (<[k := v]> (gaussian_storage w)) w);
  grow_ply : forall w k v, R w (set_ply_storage (<[k := v]> (ply_storage w)) w)
}.

Definition same_stores (w w' : World) : Prop :=
  gaussian_storage w' = gaussian_storage w /\ ply_storage w' = ply_storage w.

Definition stores_grow (w w' : World) : Prop :=
  dom (gaussian_storage w) ⊆ dom (gaussian_storage w') /\
  dom (ply_storage w) ⊆ dom (ply_storage w').

Definition calls_grow (w w' : World) : Prop :=
  exists evs, calls w' = calls w ++ evs.

(** The claim as the specification words it: an id that a render or video
    request is not refused with 404 was returned by an earlier upload. *)
Definition accepted_ids_were_returned (w0 : World) (rs : list Request)
    (r : Request) : Prop :=
  forall sid,
    rendered_session r = Some sid ->
    status (fst (handle r (snd (serve rs w0)))) <> 404 ->
    sid ∈ returned_ids (fst (serve rs w0)).

End Handlers.

(** ** A small instance of the collaborators *)

Module Demo.

(** What lies outside the process: a counter for fresh names, whether a
    CUDA device is present, whether the network answers, whether the disk
    has room. *)
Record DemoExt := mkDemoExt {
  rng : nat;
  has_cuda : bool;
  network_up : bool;
  disk_free : bool
}.

Definition bump (e : DemoExt) : DemoExt :=
  mkDemoExt (S (rng e)) (has_cuda e) (network_up e) (disk_free e).

Definition letter (n : nat) : string :=
  String (Ascii.ascii_of_nat (97 + n)) EmptyString.

Definition ok {A} (a : A) : ExtOp DemoExt A := fun e => (inr a, e).
Definition fails {A} (msg : string) : ExtOp DemoExt A :=
  fun e => (inl (Exception msg), e).

(** Needs the GPU. *)
Definition on_gpu {A} (a : A) : ExtOp DemoExt A :=
  fun e => if has_cuda e then (inr a, e)
           else (inl (Exception "Torch not compiled with CUDA enabled"), e).

(** Needs room on the disk. *)
Definition on_disk {A} (a : A) : ExtOp DemoExt A :=
  fun e => if disk_free e then (inr a, e)
           else (inl (Exception "No space left on device"), e).

Definition to_device {A} (a : A) (d : Device) : ExtOp DemoExt A :=
  match d with cuda => on_gpu a | _ => ok a end.

(** Images are their sizes, arrays their shapes, tensors their entries,
    gaussians the shape of the image they came from. *)
#[export] Instance demo : Sharp := {|
  Ext := DemoExt;
  PILImage := Z * Z;
  NDArray := Z * Z;
  Tensor := list float;
  StateDict := unit;
  Predictor := unit;
  Gaussians3D := Z * Z;
  CameraModel := Z * Z;
  TrajectoryParams := Z;
  cuda_is_available := has_cuda;
  mps_is_available := fun _ => None;
  load_state_dict_from_url := fun _ e =>
    if network_up e then (inr tt, e) else (inl (Exception "URLError"), e);
  image_to_tensor := fun _ d => to_device [] d;
  torch_tensor := fun rows d =>
    match d with Some d => to_device (concat rows) d | None => ok (concat rows) end;
  torch_tensor1 := fun row d =>
    match d with Some d => to_device row d | None => ok row end;
  interpolate := fun t _ => ok t;
  tensor_clone := ok;
  scale_row := fun t _ _ => ok t;
  torch_eye := fun _ d => to_device [] d;
  batch_to := to_device;
  tensor_to := to_device;
  color_to_uint8 := ok;
  color_to_numpy := fun _ => ok (0, 0);
  first_of_batch := ok;
  np_sin := fun x => x;
  np_cos := fun _ => 1%float;
  Image_open := fun contents =>
    match contents with
    | [] => fails "cannot identify image file"
    | _ => ok (4, 3)
    end;
  rgb_array := fun size => ok (snd size, fst size);
  shape2 := fun a => a;
  uuid4 := fun e => ("sess-" +:+ letter (rng e), bump e);
  module_dir := "/srv/webapp";
  gettempdir := "/tmp";
  NamedTemporaryFile := fun suffix e =>
    (inr ("/tmp/tmp" +:+ letter (rng e) +:+ suffix), bump e);
  create_predictor := ok tt;
  load_state_dict := fun _ _ => ok tt;
  predictor_eval := ok;
  predictor_to := to_device;
  predictor_forward := fun _ _ _ => ok (1536, 1536);
  unproject_gaussians := fun g _ _ _ => ok g;
  gaussians_to := to_device;
  convert_focallength := fun w h f_mm =>
    PrimFloat.div
      (PrimFloat.mul f_mm
         (PrimFloat.sqrt (PrimFloat.of_uint63 (Uint63.of_Z (w * w + h * h)))))
      (PrimFloat.sqrt 1872);
  save_ply := fun _ _ _ _ => on_disk tt;
  save_image := fun _ _ => on_disk tt;
  make_trajectory_params := fun _ n _ _ => n;
  compute_max_offset := fun _ _ _ _ => ok (0.5%float, 0.5%float, 0%float);
  create_camera_model := fun _ _ res => ok res;
  camera_compute := fun cm eye => ok (eye, eye, fst cm, snd cm);
  GSplatRenderer := fun _ => ok tt;
  renderer_call := fun _ _ ex intr _ _ => on_gpu (ex, intr);
  VideoWriter := fun _ => on_disk tt;
  add_frame := fun _ _ => on_disk tt;
  writer_close := ok tt;
  http_exception_str := fun _ detail => detail
|}.

(** A machine with the network up; [gpu] and [room] say whether it has a
    CUDA device and free disk space. *)
Definition machine (gpu room : bool) : DemoExt := mkDemoExt 0 gpu true room.

(** The server once [startup_event] has run. *)
Definition started (gpu room : bool) : World :=
  snd (startup_event (imported ∅ (machine gpu room))).

(** One image uploaded to a started server. *)
Definition one_byte : list Byte.byte := [Byte.x00].
Definition after_upload (gpu room : bool) : World :=
  snd (upload_image one_byte (started gpu room)).

(** The entry the demo upload stores for its image of 4 by 3 pixels. *)
Definition demo_entry : Gaussians3D * SceneMetaData :=
  ((1536, 1536),
   mkSceneMetaData (convert_focallength 4 3 30) (4, 3) "linearRGB").

End Demo.

(** ** Vocabulary of the further properties *)

Section MoreVocabulary.
Context `{L : Sharp}.

(** A relation between states that tolerates everything the module does:
    calls into collaborators, new or rewritten files, assignments to the
    globals and insertions into the two dictionaries. *)
Class Monotone (R : World -> World -> Prop) := {
  mono_refl : forall w, R w w;
  mono_trans : forall w1 w2 w3, R w1 w2 -> R w2 w3 -> R w1 w3;
  mono_ext : forall w e ev, R w (set_ext e ev w);
  mono_write : forall w p d, R w (set_fs (<[p := d]> (fs w)) w);
  mono_device : forall w d, R w (set_device d w);
  mono_predictor : forall w p, R w (set_predictor p w);
  mono_gaussian : forall w k v,
    R w (set_gaussian_storage (<[k := v]> (gaussian_storage w)) w);
  mono_ply : forall w k v, R w (set_ply_storage (<[k := v]> (ply_storage w)) w)
}.

(** No file disappears. *)
Definition files_grow (w w' : World) : Prop := dom (fs w) ⊆ dom (fs w').

(** Every id with a PLY path has gaussians. *)
Definition ply_has_gaussians (w : World) : Prop :=
  dom (ply_storage w) ⊆ dom (gaussian_storage w).

(** Every stored PLY path is a file on disk. *)
Definition ply_on_disk (w : World) : Prop :=
  forall sid p, ply_storage w !! sid = Some p -> is_Some (fs w !! p).

(** What a route may answer: a response, or an [HTTPException] whose status
    is one of [allowed]; never another exception. *)
Definition answers (allowed : list Z) (res : Result) : Prop :=
  match res with
  | inr _ => True
  | inl (HTTPException s _) => s ∈ allowed
  | inl (Exception _) => False
  end.

(** The error statuses each route raises in the source. *)
Definition route_statuses (r : Request) : list Z :=
  match r with
  | GET_root | GET_check => []
  | GET_ply _ => [404]
  | POST_upload _ => [500]
  | GET_render _ _ _ _ _ _ | POST_generate_video _ => [404; 503; 500]
  end.

(** What a returning [predict_image] leaves on the record of calls, in
    order. *)
Definition predict_image_calls : list Event :=
  [Lib "torch.from_numpy"; Lib "torch.tensor"; Lib "F.interpolate";
   Lib "predictor"; Lib "torch.tensor"; Lib "clone"; Lib "mul_"; Lib "mul_";
   Lib "torch.eye"; Lib "unproject_gaussians"].

(** What one pass of the second loop of [generate_video] leaves on record,
    in order. *)
Definition frame_calls : list Event :=
  [Lib "to"; Lib "compute"; Lib "to"; Lib "to"; Lib "to"; Lib "renderer";
   Lib "to"; Lib "getitem"; Lib "add_frame"].

(** Every stored session is in linearRGB and has the focal length that
    [convert_focallength] gives its stored width and height at 30. *)
Definition sessions_as_uploaded (w : World) : Prop :=
  forall sid g meta,
    gaussian_storage w !! sid = Some (g, meta) ->
    color_space meta = "linearRGB"
    /\ focal_length_px meta
       = convert_focallength (fst (resolution_px meta))
           (snd (resolution_px meta)) 30.

End MoreVocabulary.

(** The server before [startup_event], on a machine without CUDA. *)
Definition not_started : World :=
  imported (L := Demo.demo) ∅ (Demo.machine false true).

(** ** Vocabulary of the revised properties *)

Section RevisedVocabulary.
Context `{L : Sharp}.

(** Lines 362 to 413 of [generate_video]: everything after the first loop,
    given the trajectory that loop built. *)
Definition video_from_trajectory (session_id : string) (gaussians : Gaussians3D)
    (metadata : SceneMetaData) (trajectory : list Tensor) : M Response :=
  let '(width, height) := resolution_px metadata in
  let f_px := focal_length_px metadata in
  video_path <- call "tempfile.NamedTemporaryFile" (NamedTemporaryFile ".mp4") ;;
  write_file video_path FEmpty ;;
  let dev := cuda in
  rows <- lift (pinhole_rows f_px width height) ;;
  intrinsics <- call "torch.tensor" (torch_tensor rows (Some dev)) ;;
  camera_model <-
    call "create_camera_model"
      (create_camera_model gaussians intrinsics (resolution_px metadata)) ;;
  call "GSplatRenderer" (GSplatRenderer (color_space metadata)) ;;
  call "VideoWriter" (VideoWriter video_path) ;;
  frames <-
    render_frames gaussians camera_model (color_space metadata) dev
      trajectory [] ;;
  call "close" writer_close ;;
  write_file video_path (FVideo frames) ;;
  ret (FileResponse video_path "video/mp4"
         [("Content-Disposition",
           "attachment; filename=" +:+ dquote +:+ "gaussian-rotation-"
             +:+ session_id +:+ ".mp4" +:+ dquote)]).

(** The video handler with its first loop replaced by the construction of
    one tensor per position of the quarter-turn sweep, at the offsets that
    [compute_max_offset] returned. *)
Definition generate_video_on_arc (session_id : string) (gaussians : Gaussians3D)
    (metadata : SceneMetaData) : M Response :=
  try_except
    (max_offset <-
       call "compute_max_offset"
         (compute_max_offset gaussians
            (make_trajectory_params "rotate" 120 1 max_disparity)
            (resolution_px metadata) (focal_length_px metadata)) ;;
     trajectory <- make_tensors (arc_positions max_offset) [] ;;
     video_from_trajectory session_id gaussians metadata trajectory)
    (fun e => raise (HTTPException 500 (exn_str e))).

(** The claim as the specification words it: the id of a returning upload
    was not returned by an earlier upload. *)
Definition upload_ids_are_fresh (w0 : World) (rs : list Request)
    (contents : list Byte.byte) : Prop :=
  forall body w',
    upload_image contents (snd (serve rs w0)) = (inr (JSONUpload body), w') ->
    session_id body ∉ returned_ids (fst (serve rs w0)).

(** The number of recorded calls of the operation [fn]. *)
Definition calls_to (fn : string) (evs : list Event) : nat :=
  length (List.filter
            (fun ev => match ev with
                       | Lib f => String.eqb f fn
                       | Uuid4 _ => false
                       end) evs).

End RevisedVocabulary.

(** The collaborators [L] with another [uuid.uuid4()]. *)
Definition with_uuid4 (L : Sharp) (f : @Ext L -> string * @Ext L) : Sharp := {|
  Ext := @Ext L;
  PILImage := @PILImage L;
  NDArray := @NDArray L;
  Tensor := @Tensor L;
  StateDict := @StateDict L;
  Predictor := @Predictor L;
  Gaussians3D := @Gaussians3D L;
  CameraModel := @CameraModel L;
  TrajectoryParams := @TrajectoryParams L;
  cuda_is_available := @cuda_is_available L;
  mps_is_available := @mps_is_available L;
  load_state_dict_from_url := @load_state_dict_from_url L;
  image_to_tensor := @image_to_tensor L;
  torch_tensor := @torch_tensor L;
  torch_tensor1 := @torch_tensor1 L;
  interpolate := @interpolate L;
  tensor_clone := @tensor_clone L;
  scale_row := @scale_row L;
  torch_eye := @torch_eye L;
  batch_to := @batch_to L;
  tensor_to := @tensor_to L;
  color_to_uint8 := @color_to_uint8 L;
  color_to_numpy := @color_to_numpy L;
  first_of_batch := @first_of_batch L;
  np_sin := @np_sin L;
  np_cos := @np_cos L;
  Image_open := @Image_open L;
  rgb_array := @rgb_array L;
  shape2 := @shape2 L;
  uuid4 := f;
  module_dir := @module_dir L;
  gettempdir := @gettempdir L;
  NamedTemporaryFile := @NamedTemporaryFile L;
  create_predictor := @create_predictor L;
  load_state_dict := @load_state_dict L;
  predictor_eval := @predictor_eval L;
  predictor_to := @predictor_to L;
  predictor_forward := @predictor_forward L;
  unproject_gaussians := @unproject_gaussians L;
  gaussians_to := @gaussians_to L;
  convert_focallength := @convert_focallength L;
  save_ply := @save_ply L;
  save_image := @save_image L;
  make_trajectory_params := @make_trajectory_params L;
  compute_max_offset := @compute_max_offset L;
  create_camera_model := @create_camera_model L;
  camera_compute := @camera_compute L;
  GSplatRenderer := @GSplatRenderer L;
  renderer_call := @renderer_call L;
  VideoWriter := @VideoWriter L;
  add_frame := @add_frame L;
  writer_close := @writer_close L;
  http_exception_str := @http_exception_str L
|}.

(** The small instance with a [uuid.uuid4()] that returns one value again
    and again. *)
Definition repeating : Sharp :=
  with_uuid4 Demo.demo (fun e => ("sess-a", e)).

(** The server of that instance, started on a machine without CUDA. *)
Definition repeating_started : @World repeating :=
  snd (@startup_event repeating
         (@imported repeating ∅ (Demo.machine false true))).

(** ** Running blocks *)

Section Running.
Context `{L : Sharp}.

Lemma bind_inr {A B} (m : M A) (k : A -> M B) w b w' :
  bind m k w = (inr b, w') ->
  exists a w1, m w = (inr a, w1) /\ k a w1 = (inr b, w').
Proof.
  unfold bind. destruct (m w) as [[e|a] w1]; intros H; [discriminate|].
  eauto.
Qed.

Lemma bind_run {A B} (m : M A) (k : A -> M B) w a w1 :
  m w = (inr a, w1) -> bind m k w = k a w1.
Proof. unfold bind. intros ->. reflexivity. Qed.

Lemma try_inr {A} (m : M A) (f : exn -> exn) w a w' :
  try_except m (fun e => raise (f e)) w = (inr a, w') -> m w = (inr a, w').
Proof.
  unfold try_except, raise. destruct (m w) as [[e|a'] w1]; intros H;
    [discriminate | exact H].
Qed.

Lemma call_inr {A} fn (op : ExtOp Ext A) w a w' :
  call fn op w = (inr a, w') ->
  exists e, op (ext w) = (inr a, e) /\ w' = set_ext e (Lib fn) w.
Proof.
  unfold call. destruct (op (ext w)) as [[x|a'] e]; intros H; [discriminate|].
  injection H as -> <-. eauto.
Qed.

(** ** Frames: what a block leaves alone *)

#[export] Instance same_stores_frame : Frame same_stores.
Proof.
  split; unfold same_stores; simpl; try (intros; split; reflexivity).
  intros w1 w2 w3 [H1 H2] [H3 H4]. split; congruence.
Qed.

#[export] Instance stores_grow_frame : Frame stores_grow.
Proof.
  split; unfold stores_grow; simpl; try (intros; split; reflexivity).
  intros w1 w2 w3 [H1 H2] [H3 H4]. split; set_solver.
Qed.

#[export] Instance stores_grow_grow : GrowFrame stores_grow.
Proof.
  split; [apply _ | |]; unfold stores_grow; simpl; intros w k v;
    rewrite dom_insert_L; split; set_solver.
Qed.

#[export] Instance calls_grow_frame : Frame calls_grow.
Proof.
  split; unfold calls_grow; simpl.
  - intros w. exists []. by rewrite app_nil_r.
  - intros w1 w2 w3 [a Ha] [b Hb]. exists (a ++ b). rewrite Hb, Ha.
    by rewrite app_assoc.
  - intros w e ev. by exists [ev].
  - intros w f. exists []. by rewrite app_nil_r.
  - intros w d. exists []. by rewrite app_nil_r.
  - intros w p. exists []. by rewrite app_nil_r.
Qed.

#[export] Instance calls_grow_grow : GrowFrame calls_grow.
Proof.
  split; [apply _ | |]; unfold calls_grow; simpl; intros w k v;
    exists []; by rewrite app_nil_r.
Qed.

Section FrameRules.
Context (R : World -> World -> Prop) `{!Frame R}.

Lemma preserves_ret {A} (a : A) : preserves R (ret a).
Proof. intros w. apply frame_refl. Qed.

Lemma preserves_raise {A} e : preserves R (@raise _ A e).
Proof. intros w. apply frame_refl. Qed.

Lemma preserves_lift {A} (r : exn + A) : preserves R (lift r).
Proof. intros w. apply frame_refl. Qed.

Lemma preserves_get : preserves R get.
Proof. intros w. apply frame_refl. Qed.

Lemma preserves_path_exists p : preserves R (path_exists p).
Proof. intros w. apply frame_refl. Qed.

Lemma preserves_bind {A B} (m : M A) (k : A -> M B) :
  preserves R m -> (forall a, preserves R (k a)) -> preserves R (bind m k).
Proof.
  intros Hm Hk w. unfold bind. specialize (Hm w).
  destruct (m w) as [[e|a] w1]; simpl in *; [exact Hm|].
  eapply frame_trans; [exact Hm | apply Hk].
Qed.

Lemma preserves_try {A} (m : M A) (h : exn -> M A) :
  preserves R m -> (forall e, preserves R (h e)) -> preserves R (try_except m h).
Proof.
  intros Hm Hh w. unfold try_except. specialize (Hm w).
  destruct (m w) as [[e|a] w1]; simpl in *; [|exact Hm].
  eapply frame_trans; [exact Hm | apply Hh].
Qed.

Lemma preserves_call {A} fn (op : ExtOp Ext A) : preserves R (call fn op).
Proof.
  intros w. unfold call. destruct (op (ext w)) as [r e]. apply frame_ext.
Qed.

Lemma preserves_uuid4 : preserves R call_uuid4.
Proof.
  intros w. unfold call_uuid4. destruct (uuid4 (ext w)) as [u e].
  apply frame_ext.
Qed.

Lemma preserves_write_file p d : preserves R (write_file p d).
Proof. intros w. apply frame_fs. Qed.

Lemma preserves_set_device d : preserves R (modify (set_device d)).
Proof. intros w. apply frame_device. Qed.

Lemma preserves_set_predictor p : preserves R (modify (set_predictor p)).
Proof. intros w. apply frame_predictor. Qed.

End FrameRules.

End Running.

(** One step of a frame proof: split a sequence, discharge a primitive, or
    case on what a [match], [if] or destructuring [let] inspects. *)
Ltac frame_step :=
  lazymatch goal with
  | |- preserves _ (bind _ _) => apply preserves_bind; [apply _ | | intros ?]
  | |- preserves _ (try_except _ _) => apply preserves_try; [apply _ | | intros ?]
  | |- preserves _ (ret _) => apply preserves_ret; apply _
  | |- preserves _ (raise _) => apply preserves_raise; apply _
  | |- preserves _ (lift _) => apply preserves_lift; apply _
  | |- preserves _ get => apply preserves_get; apply _
  | |- preserves _ (path_exists _) => apply preserves_path_exists; apply _
  | |- preserves _ (call _ _) => apply preserves_call; apply _
  | |- preserves _ call_uuid4 => apply preserves_uuid4; apply _
  | |- preserves _ (write_file _ _) => apply preserves_write_file; apply _
  | |- preserves _ (modify (set_device _)) => apply preserves_set_device; apply _
  | |- preserves _ (modify (set_predictor _)) =>
    apply preserves_set_predictor; apply _
  | |- preserves _ (match ?x with _ => _ end) => destruct x
  end.

(** ** Frames of the module's functions *)

Section HandlerFrames.
Context `{L : Sharp} (R : World -> World -> Prop) `{!Frame R}.

Lemma preserves_get_device : preserves R get_device.
Proof. unfold get_device. repeat frame_step. Qed.

Lemma preserves_load_model : preserves R load_model.
Proof.
  unfold load_model. repeat frame_step. apply preserves_get_device.
Qed.

Lemma preserves_root : preserves R root.
Proof. unfold root. repeat frame_step. Qed.

Lemma preserves_check_system : preserves R check_system.
Proof. unfold check_system. repeat frame_step. Qed.

Lemma preserves_get_ply sid : preserves R (get_ply sid).
Proof. unfold get_ply. repeat frame_step. Qed.

Lemma preserves_predict_image pm image f_px dev :
  preserves R (predict_image pm image f_px dev).
Proof. unfold predict_image. repeat frame_step. Qed.

Lemma preserves_upload_predict contents : preserves R (upload_predict contents).
Proof.
  unfold upload_predict. repeat frame_step. apply preserves_predict_image.
Qed.

Lemma preserves_build_trajectory max_offset n steps :
  forall trajectory, preserves R (build_trajectory max_offset n steps trajectory).
Proof.
  induction steps as [|i steps IH]; intros trajectory; simpl;
    repeat frame_step. apply IH.
Qed.

Lemma preserves_render_frames g cm cs dev trajectory :
  forall frames, preserves R (render_frames g cm cs dev trajectory frames).
Proof.
  induction trajectory as [|p trajectory IH]; intros frames; simpl;
    repeat frame_step. apply IH.
Qed.

Lemma preserves_render_view sid ex ey ez width height :
  preserves R (render_view sid ex ey ez width height).
Proof. unfold render_view. repeat frame_step. Qed.

Lemma preserves_generate_video sid : preserves R (generate_video sid).
Proof.
  unfold generate_video. repeat frame_step.
  - apply preserves_build_trajectory.
  - apply preserves_render_frames.
Qed.

End HandlerFrames.

Section UploadFrames.
Context `{L : Sharp} (R : World -> World -> Prop) `{!GrowFrame R}.

Lemma preserves_JSONResponse body : preserves R (JSONResponse body).
Proof. unfold JSONResponse. repeat frame_step. Qed.

Lemma preserves_upload_store sid width height f_px g :
  preserves R (upload_store sid width height f_px g).
Proof.
  unfold upload_store. repeat frame_step.
  - intros w; apply grow_gaussian.
  - intros w; apply grow_ply.
  - apply preserves_JSONResponse.
Qed.

Lemma preserves_upload_image contents : preserves R (upload_image contents).
Proof.
  unfold upload_image. repeat frame_step.
  - apply preserves_predict_image; apply _.
  - intros w; apply grow_gaussian.
  - intros w; apply grow_ply.
  - apply preserves_JSONResponse.
Qed.

Lemma preserves_handle r : preserves R (handle r).
Proof.
  destruct r; simpl.
  - apply preserves_root; apply _.
  - apply preserves_check_system; apply _.
  - apply preserves_get_ply; apply _.
  - apply preserves_upload_image.
  - apply preserves_render_view; apply _.
  - apply preserves_generate_video; apply _.
Qed.

End UploadFrames.

(** Invert a run that returned: through [try_except] with a raising
    handler, through each [bind] (naming the value and state in between),
    through each collaborator call, and by cases on what is inspected. *)
Ltac run_inv H :=
  repeat first
    [ apply try_inr in H
    | let a := fresh "a" in
      let v := fresh "v" in
      let Hm := fresh "Hm" in
      apply bind_inr in H as (a & v & Hm & H);
      first
        [ apply call_inr in Hm as (? & Hm & ->)
        | progress (unfold get, modify, write_file, lift, path_exists in Hm);
          first [ injection Hm as <- <- | injection Hm as -> <- | idtac ]
        | idtac ]
    | match type of H with
      | raise _ _ = (inr _, _) => discriminate H
      | (match ?x with _ => _ end) _ = _ => destruct x eqn:?
      | (if ?x then _ else _) _ = _ => destruct x eqn:?
      end ].

(** ** Facts about the loops, the upload and the server *)

Section Sessions.
Context `{L : Sharp}.

(** The first loop returns one tensor per step, in order, after those it
    was given. *)
Lemma build_trajectory_length max_offset n steps :
  forall trajectory w out w',
    build_trajectory max_offset n steps trajectory w = (inr out, w') ->
    length out = (length trajectory + length steps)%nat.
Proof.
  induction steps as [|i steps IH]; intros trajectory w out w' H; simpl in H.
  - injection H as <- _. simpl. lia.
  - apply bind_inr in H as (t & w1 & _ & H).
    apply bind_inr in H as (p & w2 & _ & H).
    apply IH in H. rewrite H, length_app. simpl. lia.
Qed.

(** The second loop adds one frame per position. *)
Lemma render_frames_length g cm cs dev trajectory :
  forall frames w out w',
    render_frames g cm cs dev trajectory frames w = (inr out, w') ->
    length out = (length frames + length trajectory)%nat.
Proof.
  induction trajectory as [|p trajectory IH]; intros frames w out w' H;
    simpl in H.
  - injection H as <- _. simpl. lia.
  - apply bind_inr in H as (? & ? & _ & H).
    apply bind_inr in H as ([[[? ?] ?] ?] & ? & _ & H).
    repeat (apply bind_inr in H as (? & ? & _ & H)).
    apply IH in H. rewrite H, length_app. simpl. lia.
Qed.

Lemma frames_added_app evs1 evs2 :
  frames_added (evs1 ++ evs2) = (frames_added evs1 + frames_added evs2)%nat.
Proof. unfold frames_added. rewrite List.filter_app, length_app. reflexivity. Qed.

(** The first loop calls [torch.tensor] only. *)
Lemma build_trajectory_calls max_offset n steps :
  forall trajectory w out w',
    build_trajectory max_offset n steps trajectory w = (inr out, w') ->
    exists evs, calls w' = calls w ++ evs /\ frames_added evs = 0%nat.
Proof.
  induction steps as [|i steps IH]; intros trajectory w out w' H; simpl in H.
  - injection H as _ <-. exists []. rewrite app_nil_r. auto.
  - apply bind_inr in H as (t & w1 & Ht & H).
    unfold lift in Ht. injection Ht as _ <-.
    apply bind_inr in H as (p & w2 & Hp & H).
    apply call_inr in Hp as (e & _ & ->).
    apply IH in H as (evs & -> & Hevs). simpl.
    exists (Lib "torch.tensor" :: evs). rewrite <- app_assoc.
    split; [reflexivity | exact Hevs].
Qed.

(** The second loop calls [add_frame] once per position. *)
Lemma render_frames_calls g cm cs dev trajectory :
  forall frames w out w',
    render_frames g cm cs dev trajectory frames w = (inr out, w') ->
    exists evs,
      calls w' = calls w ++ evs /\ frames_added evs = length trajectory.
Proof.
  induction trajectory as [|p trajectory IH]; intros frames w out w' H;
    simpl in H.
  - injection H as _ <-. exists []. rewrite app_nil_r. auto.
  - run_inv H. apply IH in H as (evs & -> & Hevs). simpl.
    rewrite <- !app_assoc. eexists. split; [reflexivity|].
    simpl. rewrite <- Hevs. reflexivity.
Qed.

Lemma arc_t_steps :
  Forall (fun i =>
            trajectory_t 120 i = inr (arc_t i)
            /\ PrimFloat.leb (-0.25) (arc_t i) = true
            /\ PrimFloat.leb (arc_t i) 0.25 = true
            /\ (i < 119 -> PrimFloat.ltb (arc_t i) (arc_t (i + 1)) = true))
    (seqZ 0 120).
Proof.
  let l := eval vm_compute in (seqZ 0 120) in change (seqZ 0 120) with l.
  repeat (apply Forall_cons; split;
          [ repeat split;
            first [ vm_compute; reflexivity
                  | intros _; vm_compute; reflexivity
                  | intros Hlt; exfalso; revert Hlt; apply Z.lt_irrefl ]
          | ]).
  apply Forall_nil. exact I.
Qed.

(** The first loop is the tensor construction over the positions of its
    steps. *)
Lemma build_trajectory_positions max_offset steps :
  Forall (fun i => 0 <= i < 120) steps ->
  forall trajectory w,
    build_trajectory max_offset 120 steps trajectory w
    = make_tensors (map (fun i => eye_at max_offset (arc_t i)) steps)
        trajectory w.
Proof.
  induction 1 as [|i steps Hi Hsteps IH]; intros trajectory w; simpl;
    [reflexivity|].
  pose proof (proj1 (Forall_seqZ _ 0 120) arc_t_steps i) as Hstep.
  destruct Hstep as (Ht & _); [lia|].
  unfold bind at 1. unfold lift. rewrite Ht. unfold bind.
  destruct (call "torch.tensor" (torch_tensor1 (eye_at max_offset (arc_t i)) None) w)
    as [[e|p] w1]; [reflexivity | apply IH].
Qed.

Lemma upload_image_phases contents w :
  upload_image contents w
  = try_except
      (x <- upload_predict contents ;;
       let '(sid, width, height, f_px, g) := x in
       upload_store sid width height f_px g)
      (fun e => raise (HTTPException 500 (exn_str e))) w.
Proof.
  unfold upload_image, upload_predict, upload_store, try_except. f_equal.
  unfold bind.
  destruct (call "Image.open" (Image_open contents) w) as [[e|pil] w1];
    [reflexivity|].
  destruct (call "np.array" (rgb_array pil) w1) as [[e|img] w2]; [reflexivity|].
  destruct (shape2 img) as [height width].
  destruct (call_uuid4 w2) as [[e|sid] w3]; [reflexivity|].
  unfold get. destruct (device w3) as [dev|]; [|reflexivity].
  destruct (predict_image (predictor w3) img _ dev w3) as [[e|g] w4];
    reflexivity.
Qed.

Lemma upload_store_gaussians sid width height f_px g w :
  gaussian_storage (snd (upload_store sid width height f_px g w))
  = <[sid := (g, mkSceneMetaData f_px (width, height) "linearRGB")]>
      (gaussian_storage w).
Proof.
  unfold upload_store, bind, modify, write_file, modify, call, JSONResponse,
    raise, ret. simpl.
  destruct (NamedTemporaryFile ".ply" (ext w)) as [[e|p] e1]; simpl;
    [reflexivity|].
  destruct (save_ply g f_px (height, width) p e1) as [[e|[]] e2]; simpl;
    [reflexivity|].
  destruct (PrimFloat.is_nan f_px || PrimFloat.is_infinity f_px); reflexivity.
Qed.

(** What a returned [upload_predict] did: it decoded the bytes, took the
    sides and the focal length from the decoded array, and drew the session
    id it returns from [uuid.uuid4()] during this very call. *)
Lemma upload_predict_returned contents w sid width height f_px g w1 :
  upload_predict contents w = (inr (sid, width, height, f_px, g), w1) ->
  (exists pil e1 img e2,
     Image_open contents (ext w) = (inr pil, e1)
     /\ rgb_array pil e1 = (inr img, e2)
     /\ shape2 img = (height, width))
  /\ f_px = convert_focallength width height 30
  /\ exists evs1 evs2, calls w1 = calls w ++ evs1 ++ Uuid4 sid :: evs2.
Proof.
  intros H. unfold upload_predict in H.
  apply bind_inr in H as (pil & v1 & Hopen & H).
  apply call_inr in Hopen as (e1 & Hopen & ->).
  apply bind_inr in H as (img & v2 & Hrgb & H).
  apply call_inr in Hrgb as (e2 & Hrgb & ->).
  destruct (shape2 img) as [ht wd] eqn:Hshape.
  apply bind_inr in H as (u & v3 & Huuid & H).
  unfold call_uuid4 in Huuid. simpl in Huuid.
  destruct (uuid4 e2) as [u' e3]. injection Huuid as -> <-.
  apply bind_inr in H as (v & v4 & Hget & H). injection Hget as <- <-.
  simpl in H. destruct (device w) as [dev|]; [|discriminate H].
  apply bind_inr in H as (g' & v5 & Hpred & H).
  injection H as <- <- <- <- <- <-.
  split; [eauto 10|]. split; [reflexivity|].
  lazymatch type of Hpred with
  | predict_image ?a ?b ?c ?d ?w0 = _ =>
    pose proof (preserves_predict_image calls_grow a b c d w0) as Hgrow
  end.
  rewrite Hpred in Hgrow. destruct Hgrow as [evs Hevs]. simpl in Hevs.
  exists [Lib "Image.open"; Lib "np.array"], evs. rewrite Hevs.
  rewrite <- !app_assoc. reflexivity.
Qed.

Lemma upload_image_returned contents w resp w' :
  upload_image contents w = (inr resp, w') ->
  exists sid width height f_px g w1 p,
    upload_predict contents w = (inr (sid, width, height, f_px, g), w1)
    /\ resp = JSONUpload
                (mkUploadJson sid width height f_px ("/api/ply/" +:+ sid))
    /\ ply_storage w' !! sid = Some p
    /\ fs w' !! p = Some (FPly g f_px (height, width))
    /\ exists evs, calls w' = calls w1 ++ evs.
Proof.
  intros H. rewrite upload_image_phases in H. apply try_inr in H.
  apply bind_inr in H as ([[[[sid width] height] f_px] g] & w1 & Hpred & H).
  unfold upload_store in H. run_inv H.
  unfold JSONResponse in H. simpl in H.
  destruct (PrimFloat.is_nan f_px || PrimFloat.is_infinity f_px);
    [discriminate H|].
  injection H as <- <-.
  exists sid, width, height, f_px, g, w1, a.
  split; [exact Hpred|]. split; [reflexivity|]. simpl.
  split; [apply lookup_insert_eq|]. split; [apply lookup_insert_eq|].
  eexists. rewrite <- app_assoc. reflexivity.
Qed.

(** Only the upload handler answers with an upload body. *)
Lemma handle_upload_body r w body w' :
  handle r w = (inr (JSONUpload body), w') ->
  exists contents, r = POST_upload contents.
Proof.
  destruct r; simpl; intros H; eauto.
  - discriminate H.
  - discriminate H.
  - unfold get_ply in H. run_inv H. discriminate H.
  - unfold render_view in H. run_inv H. discriminate H.
  - unfold generate_video in H. run_inv H. discriminate H.
Qed.

Lemma drawn_app evs1 evs2 : drawn (evs1 ++ evs2) = drawn evs1 ++ drawn evs2.
Proof. unfold drawn. apply flat_map_app. Qed.

(** Serving requests only extends the record of calls. *)
Lemma serve_calls_grow rs :
  forall w, calls_grow w (snd (serve rs w)).
Proof.
  induction rs as [|r rs IH]; intros w; simpl.
  - apply frame_refl.
  - pose proof (preserves_handle calls_grow r w) as Hr.
    destruct (handle r w) as [res w1]. specialize (IH w1).
    destruct (serve rs w1) as [ress w2]. simpl in *.
    eapply frame_trans; eassumption.
Qed.

(** Every session id given out so far was drawn from [uuid.uuid4()] by a
    call that is on record. *)
Lemma returned_ids_drawn rs :
  forall w sid,
    sid ∈ returned_ids (fst (serve rs w)) ->
    exists evs, calls (snd (serve rs w)) = calls w ++ evs /\ sid ∈ drawn evs.
Proof.
  induction rs as [|r rs IH]; intros w sid Hin; simpl in *.
  - apply elem_of_nil in Hin. contradiction.
  - destruct (handle r w) as [res w1] eqn:Hr. specialize (IH w1 sid).
    pose proof (preserves_handle calls_grow r w) as Hgrow.
    rewrite Hr in Hgrow. destruct Hgrow as [evs1 Hevs1]. simpl in Hevs1.
    destruct (serve rs w1) as [ress w2] eqn:Hs. simpl in *.
    pose proof (serve_calls_grow rs w1) as Hgrow2. rewrite Hs in Hgrow2.
    destruct Hgrow2 as [evs2 Hevs2]. simpl in Hevs2.
    apply elem_of_app in Hin as [Hin|Hin].
    + destruct res as [e|[body| |]]; try (apply elem_of_nil in Hin; contradiction).
      apply list_elem_of_singleton in Hin. subst sid.
      destruct (handle_upload_body _ _ _ _ Hr) as [contents ->]. simpl in Hr.
      apply upload_image_returned in Hr
        as (sid & wd & ht & f & g & v & p & Hpred & Hbody & _ & _ & evs3 & Hevs3).
      injection Hbody as ->. simpl.
      apply upload_predict_returned in Hpred as (_ & _ & evsa & evsb & Hpred).
      exists (evs1 ++ evs2). split; [rewrite Hevs2, Hevs1, app_assoc; reflexivity|].
      rewrite drawn_app. apply elem_of_app. left.
      assert (evs1 = (evsa ++ Uuid4 sid :: evsb) ++ evs3) as ->.
      { apply (app_inv_head (calls w)). rewrite <- Hevs1, Hevs3, Hpred.
        rewrite <- !app_assoc. reflexivity. }
      rewrite !drawn_app. simpl. set_solver.
    + destruct (IH Hin) as (evs & Hevs & Hd).
      exists (evs1 ++ evs). split.
      * rewrite Hevs, Hevs1, app_assoc. reflexivity.
      * rewrite drawn_app. apply elem_of_app. right. exact Hd.
Qed.

(** A stored session is never answered with 404 by either renderer. *)
Lemma stored_session_not_404 sid w entry :
  gaussian_storage w !! sid = Some entry ->
  (forall ex ey ez width height,
     status (fst (render_view sid ex ey ez width height w)) <> 404)
  /\ status (fst (generate_video sid w)) <> 404.
Proof.
  intros Hsome. destruct entry as [g meta]. split.
  - intros ex ey ez width height. unfold render_view. unfold bind at 1.
    unfold get at 1. rewrite Hsome.
    destruct (negb (cuda_is_available (ext w))); [discriminate|].
    unfold try_except.
    match goal with |- context [match ?m w with _ => _ end] =>
      destruct (m w) as [[e|resp] v] end; discriminate.
  - unfold generate_video. unfold bind at 1. unfold get at 1. rewrite Hsome.
    destruct (negb (cuda_is_available (ext w))); [discriminate|].
    unfold try_except.
    match goal with |- context [match ?m w with _ => _ end] =>
      destruct (m w) as [[e|resp] v] end; discriminate.
Qed.

Lemma serve_app rs1 rs2 w :
  serve (rs1 ++ rs2) w
  = (fst (serve rs1 w) ++ fst (serve rs2 (snd (serve rs1 w))),
     snd (serve rs2 (snd (serve rs1 w)))).
Proof.
  revert w. induction rs1 as [|r rs1 IH]; intros w; simpl.
  - destruct (serve rs2 w); reflexivity.
  - destruct (handle r w) as [res w1]. rewrite IH.
    destruct (serve rs1 w1) as [ress w2]. reflexivity.
Qed.

Lemma serve_one r w : snd (serve [r] w) = snd (handle r w).
Proof. simpl. destruct (handle r w). reflexivity. Qed.

Lemma try_raise_snd {A} (m : M A) (f : exn -> exn) w :
  snd (try_except m (fun e => raise (f e)) w) = snd (m w).
Proof. unfold try_except, raise. destruct (m w) as [[e|a] v]; reflexivity. Qed.

(** An upload changes what the gaussian store holds for an id only by
    storing under the id it drew, after its prediction returned. *)
Lemma upload_image_inserted contents w sid :
  gaussian_storage (snd (upload_image contents w)) !! sid
    <> gaussian_storage w !! sid ->
  exists width height f_px g w1,
    upload_predict contents w = (inr (sid, width, height, f_px, g), w1).
Proof.
  intros Hne.
  assert (snd (upload_image contents w)
          = snd (try_except
                   (x <- upload_predict contents ;;
                    let '(sid, width, height, f_px, g) := x in
                    upload_store sid width height f_px g)
                   (fun e => raise (HTTPException 500 (exn_str e))) w)) as Heq.
  { rewrite upload_image_phases. reflexivity. }
  rewrite Heq, try_raise_snd in Hne. clear Heq.
  pose proof (preserves_upload_predict same_stores contents w) as [Hg _].
  unfold bind in Hne.
  destruct (upload_predict contents w)
    as [[e|[[[[sid' wd] ht] f] g]] w1] eqn:Hpred; simpl in Hg, Hne.
  - rewrite Hg in Hne. contradiction.
  - rewrite upload_store_gaussians, Hg in Hne.
    destruct (decide (sid' = sid)) as [->|Hdiff]; [eauto 10|].
    rewrite lookup_insert_ne in Hne by exact Hdiff. contradiction.
Qed.

(** Every id in the gaussian store of a server that started with an empty
    store was put there by an upload request, under the id that upload
    drew, after its prediction returned. *)
Lemma stored_session_origin rs :
  forall w0 sid,
    gaussian_storage w0 !! sid = None ->
    is_Some (gaussian_storage (snd (serve rs w0)) !! sid) ->
    exists pre contents post width height f_px g w1,
      rs = pre ++ POST_upload contents :: post
      /\ gaussian_storage (snd (serve pre w0)) !! sid = None
      /\ upload_predict contents (snd (serve pre w0))
         = (inr (sid, width, height, f_px, g), w1).
Proof.
  induction rs as [|r rs IH] using rev_ind; intros w0 sid Hnone Hsome.
  - simpl in Hsome. rewrite Hnone in Hsome. destruct Hsome; discriminate.
  - rewrite serve_app in Hsome. cbn [snd] in Hsome. rewrite serve_one in Hsome.
    destruct (gaussian_storage (snd (serve rs w0)) !! sid) as [entry|] eqn:Hmid.
    + destruct (IH w0 sid Hnone) as
        (pre & contents & post & wd & ht & f & g & w1 & -> & Hpre & Hpred);
        [rewrite Hmid; eauto|].
      exists pre, contents, (post ++ [r]), wd, ht, f, g, w1.
      rewrite <- app_assoc. auto.
    + assert ((exists contents, r = POST_upload contents)
              \/ same_stores (snd (serve rs w0))
                   (snd (handle r (snd (serve rs w0))))) as [[contents ->]|[Hg _]].
      { destruct r; [right|right|right|left; eauto|right|right].
        - apply (preserves_root same_stores).
        - apply (preserves_check_system same_stores).
        - apply (preserves_get_ply same_stores).
        - apply (preserves_render_view same_stores).
        - apply (preserves_generate_video same_stores). }
      * destruct (upload_image_inserted contents (snd (serve rs w0)) sid)
          as (wd & ht & f & g & w1 & Hpred).
        { rewrite Hmid. intros Heq. simpl in Hsome. rewrite Heq in Hsome.
          destruct Hsome; discriminate. }
        exists rs, contents, [], wd, ht, f, g, w1. auto.
      * rewrite Hg, Hmid in Hsome. destruct Hsome; discriminate.
Qed.

End Sessions.

(** ** Properties of the handlers *)

Section Properties.
Context `{L : Sharp}.

(** C1, amended. On a server whose gaussian store started empty, every
    session id that the render or the video handler does not refuse with
    404 was stored by an earlier upload request, under the id that request
    drew and after its prediction had returned (the request itself may
    still have ended in a 500 during the PLY export).  An id absent from
    the store is answered with the 404 [HTTPException], the state and the
    record of calls untouched: no crash, no renderer invocation. *)
Theorem accepted_session_was_stored_by_upload w0 rs r sid :
  gaussian_storage w0 = ∅ ->
  rendered_session r = Some sid ->
  (status (fst (handle r (snd (serve rs w0)))) <> 404 ->
   exists pre contents post width height f_px g w1,
     rs = pre ++ POST_upload contents :: post
     /\ gaussian_storage (snd (serve pre w0)) !! sid = None
     /\ upload_predict contents (snd (serve pre w0))
        = (inr (sid, width, height, f_px, g), w1))
  /\ (gaussian_storage (snd (serve rs w0)) !! sid = None ->
      handle r (snd (serve rs w0))
      = (inl (HTTPException 404 "Session not found"), snd (serve rs w0))).
Proof.
  intros Hempty Hr.
  assert (gaussian_storage (snd (serve rs w0)) !! sid = None ->
          handle r (snd (serve rs w0))
          = (inl (HTTPException 404 "Session not found"), snd (serve rs w0)))
    as Habsent.
  { intros Hnone. destruct r; try discriminate Hr; injection Hr as ->; simpl.
    - unfold render_view, bind, get, raise. rewrite Hnone. reflexivity.
    - unfold generate_video, bind, get, raise. rewrite Hnone. reflexivity. }
  split; [|exact Habsent].
  intros Hacc. apply stored_session_origin.
  - rewrite Hempty. apply lookup_empty.
  - destruct (gaussian_storage (snd (serve rs w0)) !! sid) eqn:Hlook; [eauto|].
    exfalso. apply Hacc. rewrite (Habsent eq_refl). reflexivity.
Qed.

(** C2. A request to /api/render whose session id is not in the gaussian
    session store raises the 404 [HTTPException] and leaves the state as
    it was, whatever [torch.cuda.is_available()] says: the session check
    comes before the GPU check, so a machine without CUDA answers 404 too,
    not 503. *)
Theorem render_view_unknown_session_404 sid ex ey ez width height w :
  gaussian_storage w !! sid = None ->
  render_view sid ex ey ez width height w
    = (inl (HTTPException 404 "Session not found"), w)
  /\ (cuda_is_available (ext w) = false ->
      status (fst (render_view sid ex ey ez width height w)) = 404).
Proof.
  intros Hnone.
  assert (render_view sid ex ey ez width height w
          = (inl (HTTPException 404 "Session not found"), w)) as Hrun.
  { unfold render_view, bind, get, raise. rewrite Hnone. reflexivity. }
  split; [exact Hrun|]. intros _. rewrite Hrun. reflexivity.
Qed.

(** C3. For a stored session, when no CUDA device is available both
    /api/render and /api/generate-video raise the 503 [HTTPException] and
    leave the whole state, the record of calls included, as it was: the
    renderer is not invoked and nothing is rendered on another device. *)
Theorem no_cuda_503 sid w entry :
  gaussian_storage w !! sid = Some entry ->
  cuda_is_available (ext w) = false ->
  (forall ex ey ez width height,
     exists detail,
       render_view sid ex ey ez width height w
         = (inl (HTTPException 503 detail), w))
  /\ (exists detail,
        generate_video sid w = (inl (HTTPException 503 detail), w)).
Proof.
  intros Hsome Hcuda. destruct entry as [g meta]. split.
  - intros ex ey ez width height. eexists.
    unfold render_view, bind, get, raise. rewrite Hsome, Hcuda. reflexivity.
  - eexists. unfold generate_video, bind, get, raise.
    rewrite Hsome, Hcuda. reflexivity.
Qed.

(** C4. Whenever /api/generate-video returns, it returns the MP4 file
    response of a file that holds exactly 120 frames, and [add_frame] was
    called exactly 120 times during the request, once per step of the
    120-step trajectory; the count does not depend on the resolution stored
    for the session, and the handler takes the session id only. *)
Theorem generate_video_120_frames sid w r w' :
  generate_video sid w = (inr r, w') ->
  exists video_path headers frames evs,
    r = FileResponse video_path "video/mp4" headers
    /\ fs w' !! video_path = Some (FVideo frames)
    /\ length frames = 120%nat
    /\ calls w' = calls w ++ evs
    /\ frames_added evs = 120%nat.
Proof.
  intros H. unfold generate_video in H. run_inv H.
  injection H as <- <-. injection Hm2 as _ <-.
  pose proof (render_frames_length _ _ _ _ _ _ _ _ _ Hm7) as Hlen.
  pose proof (build_trajectory_length _ _ _ _ _ _ _ Hm0) as Hlen0.
  apply render_frames_calls in Hm7 as (evs2 & Hc2 & Hn2).
  apply build_trajectory_calls in Hm0 as (evs1 & Hc1 & Hn1).
  do 4 eexists. split; [reflexivity|]. split; [simpl; apply lookup_insert_eq|].
  split; [rewrite Hlen, Hlen0, length_seqZ; reflexivity|].
  simpl. rewrite Hc2. simpl. rewrite Hc1. simpl.
  rewrite <- !app_assoc. split; [reflexivity|].
  rewrite !frames_added_app, Hn1, Hn2, Hlen0, length_seqZ. reflexivity.
Qed.

(** The video handler, for a stored session with CUDA present, is the
    handler over the quarter-turn sweep. *)
Lemma generate_video_arc sid w g meta :
  gaussian_storage w !! sid = Some (g, meta) ->
  cuda_is_available (ext w) = true ->
  generate_video sid w = generate_video_on_arc sid g meta w.
Proof.
  intros Hsome Hcuda. unfold generate_video, generate_video_on_arc.
  unfold bind at 1. unfold get at 1. rewrite Hsome, Hcuda.
  change (negb true) with false. cbv beta iota. unfold try_except.
  match goal with
  | |- (match ?a with _ => _ end) = (match ?b with _ => _ end) =>
    replace a with b; [reflexivity|]
  end.
  unfold video_from_trajectory. destruct (resolution_px meta) as [wd ht].
  unfold bind at 1. symmetry. unfold bind at 1.
  destruct (call "compute_max_offset" _ w) as [[e|max_offset] w1];
    [reflexivity|].
  unfold bind at 1. symmetry. unfold bind at 1.
  rewrite build_trajectory_positions
    by (apply Forall_seqZ; intros j Hj; lia).
  reflexivity.
Qed.

(** C5. For a stored session with CUDA present, the video handler is the
    handler that makes, in order, one float32 tensor for each of the 120
    positions
    (max_offset[0] * sin(2*pi*t_i), max_offset[1] * cos(2*pi*t_i), 0.0),
    i in 0..119, at the offsets [compute_max_offset] returned for the
    session, and renders the frames over those tensors; here
    t_i = (i/119 - 0.5) * 0.5 in binary64 arithmetic, t_0 is exactly -0.25,
    t_119 is exactly 0.25, every t_i lies between them and the t_i increase
    strictly: a quarter turn to either side. *)
Theorem trajectory_quarter_turns sid w g meta i :
  gaussian_storage w !! sid = Some (g, meta) ->
  cuda_is_available (ext w) = true ->
  0 <= i < 120 ->
  generate_video sid w = generate_video_on_arc sid g meta w
  /\ (forall max_offset,
        (forall v,
           build_trajectory max_offset 120 (seqZ 0 120) [] v
           = make_tensors (arc_positions max_offset) [] v)
        /\ arc_positions max_offset !! Z.to_nat i
           = Some [PrimFloat.mul (fst (fst max_offset))
                     (np_sin (PrimFloat.mul (PrimFloat.mul 2 np_pi) (arc_t i)));
                   PrimFloat.mul (snd (fst max_offset))
                     (np_cos (PrimFloat.mul (PrimFloat.mul 2 np_pi) (arc_t i)));
                   0%float])
  /\ trajectory_t 120 i = inr (arc_t i)
  /\ arc_t 0 = (-0.25)%float /\ arc_t 119 = 0.25%float
  /\ PrimFloat.leb (-0.25) (arc_t i) = true
  /\ PrimFloat.leb (arc_t i) 0.25 = true
  /\ (i < 119 -> PrimFloat.ltb (arc_t i) (arc_t (i + 1)) = true).
Proof.
  intros Hsome Hcuda Hi.
  pose proof (proj1 (Forall_seqZ _ 0 120) arc_t_steps i) as Hstep.
  destruct Hstep as (Ht & Hlo & Hhi & Hmono); [lia|].
  split; [exact (generate_video_arc sid w g meta Hsome Hcuda)|].
  split.
  { intros max_offset. split.
    - intros v. apply build_trajectory_positions.
      apply Forall_seqZ. intros j Hj. lia.
    - unfold arc_positions. rewrite list_lookup_fmap.
      rewrite (lookup_seqZ_lt 0 120 (Z.to_nat i)) by lia. simpl.
      rewrite Z.add_0_l, Z2Nat.id by lia. reflexivity. }
  split; [exact Ht|]. split; [reflexivity|]. split; [reflexivity|].
  split; [exact Hlo|]. split; [exact Hhi | exact Hmono].
Qed.

(** When [uuid.uuid4()] has not repeated a value, the id of a returning
    upload is one no earlier upload returned. *)
Lemma unrepeated_uuid4_gives_fresh_id rs w0 contents body w' :
  upload_image contents (snd (serve rs w0)) = (inr (JSONUpload body), w') ->
  NoDup (drawn (calls w')) ->
  session_id body ∉ returned_ids (fst (serve rs w0)).
Proof.
  intros Hup Hnodup.
  apply upload_image_returned in Hup
    as (sid & wd & ht & f & g & w1 & p & Hpred & Hbody & _ & _ & evs3 & Hevs3).
  injection Hbody as ->. simpl.
  apply upload_predict_returned in Hpred as (_ & _ & evsa & evsb & Hcalls).
  intros Hin. apply returned_ids_drawn in Hin as (evs & Hevs & Hin).
  rewrite Hevs3, Hcalls in Hnodup. rewrite !drawn_app in Hnodup. simpl in Hnodup.
  rewrite <- !app_assoc in Hnodup.
  apply NoDup_app in Hnodup as (_ & Hdisj & _).
  apply (Hdisj sid).
  - rewrite Hevs, drawn_app. apply elem_of_app. right. exact Hin.
  - apply elem_of_app. right. apply elem_of_app. left. apply list_elem_of_here.
Qed.

(** The id a returning [upload_predict] hands on is the value
    [uuid.uuid4()] returned right after the image was decoded. *)
Lemma upload_predict_drew contents w sid width height f_px g w1 :
  upload_predict contents w = (inr (sid, width, height, f_px, g), w1) ->
  exists pil e1 img e2,
    Image_open contents (ext w) = (inr pil, e1)
    /\ rgb_array pil e1 = (inr img, e2)
    /\ shape2 img = (height, width)
    /\ sid = fst (uuid4 e2).
Proof.
  intros H. unfold upload_predict in H.
  apply bind_inr in H as (pil & v1 & Hopen & H).
  apply call_inr in Hopen as (e1 & Hopen & ->).
  apply bind_inr in H as (img & v2 & Hrgb & H).
  apply call_inr in Hrgb as (e2 & Hrgb & ->).
  destruct (shape2 img) as [ht wd] eqn:Hshape.
  apply bind_inr in H as (u & v3 & Huuid & H).
  unfold call_uuid4 in Huuid. simpl in Huuid.
  destruct (uuid4 e2) as [u' e3] eqn:Hu. injection Huuid as -> <-.
  apply bind_inr in H as (v & v4 & Hget & H). injection Hget as <- <-.
  simpl in H. destruct (device w) as [dev|]; [|discriminate H].
  apply bind_inr in H as (g' & v5 & Hpred & H).
  injection H as <- <- <- <- <- <-.
  exists pil, e1, img, e2. rewrite Hu. auto.
Qed.

(** C6, amended. An upload that returns, after any sequence of earlier
    requests, answers with a JSON body holding: as session id the value
    that [uuid.uuid4()] returned during the request, taken as it comes (the
    handler makes no collision check); the width and height of the decoded
    image; the focal length [convert_focallength(width, height, 30.0)];
    and the path /api/ply/{session_id}.  The id is then in the PLY store,
    its file is on disk, and GET /api/ply/{session_id} on the state the
    upload left returns that file. *)
Theorem upload_returns_drawn_id_and_retrievable rs w0 contents resp w' :
  upload_image contents (snd (serve rs w0)) = (inr resp, w') ->
  exists body pil e1 img e2 p headers,
    resp = JSONUpload body
    /\ Image_open contents (ext (snd (serve rs w0))) = (inr pil, e1)
    /\ rgb_array pil e1 = (inr img, e2)
    /\ session_id body = fst (uuid4 e2)
    /\ shape2 img = (height body, width body)
    /\ focal_length body
       = convert_focallength (width body) (height body) 30
    /\ ply_path body = "/api/ply/" +:+ session_id body
    /\ ply_storage w' !! session_id body = Some p
    /\ is_Some (fs w' !! p)
    /\ get_ply (session_id body) w'
       = (inr (FileResponse p "application/octet-stream" headers), w').
Proof.
  intros Hup.
  apply upload_image_returned in Hup
    as (sid & wd & ht & f & g & w1 & p & Hpred & -> & Hply & Hfile & _).
  pose proof (upload_predict_returned _ _ _ _ _ _ _ _ Hpred) as (_ & Hf & _).
  apply upload_predict_drew in Hpred
    as (pil & e1 & img & e2 & Hopen & Hrgb & Hshape & Hsid).
  eexists _, pil, e1, img, e2, p, _.
  split; [reflexivity|]. simpl.
  split; [exact Hopen|]. split; [exact Hrgb|]. split; [exact Hsid|].
  split; [exact Hshape|]. split; [exact Hf|]. split; [reflexivity|].
  split; [exact Hply|]. split; [rewrite Hfile; eauto|].
  unfold get_ply, bind, get, path_exists, ret. rewrite Hply.
  rewrite bool_decide_eq_true_2 by (rewrite Hfile; eauto). reflexivity.
Qed.

(** C7. /api/ply/{session_id} is a lookup with an existence check: the
    state is left as it was; the answer is 404 exactly when the id is not
    in the file-path store or the stored path is not on disk; otherwise
    the answer is the stored file. *)
Theorem get_ply_lookup sid w :
  snd (get_ply sid w) = w
  /\ (status (fst (get_ply sid w)) = 404 <->
      ply_storage w !! sid = None
      \/ exists p, ply_storage w !! sid = Some p /\ fs w !! p = None)
  /\ (forall p, ply_storage w !! sid = Some p -> is_Some (fs w !! p) ->
      exists headers,
        fst (get_ply sid w)
          = inr (FileResponse p "application/octet-stream" headers)).
Proof.
  unfold get_ply, bind, get, path_exists, raise, ret.
  destruct (ply_storage w !! sid) as [p|] eqn:Hp; simpl.
  - destruct (fs w !! p) as [d|] eqn:Hd.
    + rewrite bool_decide_eq_true_2 by eauto. simpl.
      split; [reflexivity|]. split.
      * split; [discriminate|]. intros [?|(q & Hq & Hnone)]; [discriminate|].
        congruence.
      * intros q Hq _. injection Hq as <-. eauto.
    + rewrite bool_decide_eq_false_2 by (intros [? ?]; discriminate). simpl.
      split; [reflexivity|]. split.
      * split; [eauto|reflexivity].
      * intros q Hq [d Hd']. congruence.
  - split; [reflexivity|]. split.
    + split; [auto|reflexivity].
    + intros q Hq. discriminate.
Qed.

(** C8. [load_model] is idempotent: with a predictor resident it returns
    at once and the state (predictor, device, stores, files, calls: no
    download) is unchanged, so a call after a successful load is a no-op.
    With none resident, an exception of the checkpoint download is raised
    again to the caller after exactly one download attempt, and an
    exception of [load_state_dict] escapes as well; [startup_event] is
    that call, so startup fails, and the predictor stays unset. *)
Theorem load_model_idempotent_fatal w :
  (forall p, predictor w = Some p -> load_model w = (inr tt, w))
  /\ (forall w1, load_model w = (inr tt, w1) -> load_model w1 = (inr tt, w1))
  /\ (predictor w = None ->
      forall e e1,
        load_state_dict_from_url DEFAULT_MODEL_URL (ext w) = (inl e, e1) ->
        exists w1,
          startup_event w = (inl e, w1) /\ predictor w1 = None
          /\ calls w1 = calls w ++ [Lib "torch.hub.load_state_dict_from_url"])
  /\ (predictor w = None ->
      forall sd e1 p0 e2 e e3,
        load_state_dict_from_url DEFAULT_MODEL_URL (ext w) = (inr sd, e1) ->
        create_predictor e1 = (inr p0, e2) ->
        load_state_dict p0 sd e2 = (inl e, e3) ->
        exists w1, startup_event w = (inl e, w1) /\ predictor w1 = None).
Proof.
  assert (forall v p, predictor v = Some p -> load_model v = (inr tt, v)) as Hidem.
  { intros v p Hp. unfold load_model, bind, get, ret. rewrite Hp. reflexivity. }
  split; [apply Hidem|]. split.
  - intros w1 Hrun. destruct (predictor w) as [p|] eqn:Hp.
    + rewrite (Hidem w p Hp) in Hrun. injection Hrun as <-. eauto.
    + unfold load_model in Hrun.
      apply bind_inr in Hrun as (w0 & v0 & Hget & Hrun).
      injection Hget as <- <-. rewrite Hp in Hrun.
      repeat (apply bind_inr in Hrun as (? & ? & _ & Hrun)).
      unfold modify in Hrun. injection Hrun as <-. eapply Hidem. reflexivity.
  - split.
    + intros Hp e e1 Hdl. unfold startup_event, load_model.
      unfold bind at 1. unfold get at 1. rewrite Hp.
      unfold get_device, bind, get, modify, try_except, call, raise, ret.
      destruct (cuda_is_available (ext w)); simpl;
        [|destruct (mps_is_available (ext w)) as [[|]|]; simpl];
        rewrite Hdl; eexists; (split; [reflexivity|]); simpl; rewrite Hp; auto.
    + intros Hp sd e1 p0 e2 e e3 Hdl Hcreate Hload.
      unfold startup_event, load_model.
      unfold bind at 1. unfold get at 1. rewrite Hp.
      unfold get_device, bind, get, modify, try_except, call, raise, ret.
      destruct (cuda_is_available (ext w)); simpl;
        [|destruct (mps_is_available (ext w)) as [[|]|]; simpl];
        rewrite Hdl; simpl; rewrite Hcreate; simpl; rewrite Hload;
        eexists; (split; [reflexivity|]); simpl; rewrite Hp; auto.
Qed.

(** C9. Neither /api/render nor /api/generate-video changes the gaussian
    session store or the PLY file-path store, whether the request returns
    or raises; the same holds for every route other than the upload and
    for [load_model]; and no route ever removes a key from either store. *)
Theorem render_and_video_keep_stores w :
  (forall sid ex ey ez width height,
     same_stores w (snd (render_view sid ex ey ez width height w)))
  /\ (forall sid, same_stores w (snd (generate_video sid w)))
  /\ (forall r, (forall contents, r <> POST_upload contents) ->
        same_stores w (snd (handle r w)))
  /\ same_stores w (snd (load_model w))
  /\ (forall r, stores_grow w (snd (handle r w))).
Proof.
  split; [intros; apply preserves_render_view; apply _|].
  split; [intros; apply preserves_generate_video; apply _|].
  split.
  - intros r Hr. destruct r.
    + apply (preserves_root same_stores).
    + apply (preserves_check_system same_stores).
    + apply (preserves_get_ply same_stores).
    + exfalso. eapply Hr. reflexivity.
    + apply (preserves_render_view same_stores).
    + apply (preserves_generate_video same_stores).
  - split; [apply preserves_load_model; apply _|].
    intros r. apply preserves_handle. apply _.
Qed.


End Properties.

(** ** The properties on the small instance *)

Section Instances.
Import Demo.

(** C1, as worded, fails: on a machine whose disk is full the upload is
    answered 500 after it stored its gaussians, and the render request for
    the id it drew is then answered 503, not 404, although no upload ever
    returned that id. *)
Lemma accepted_without_successful_upload :
  ~ accepted_ids_were_returned (started false false) [POST_upload one_byte]
      (GET_render "sess-a" 0 0 0 800 600).
Proof.
  intros Hclaim. specialize (Hclaim "sess-a" eq_refl).
  assert ("sess-a" ∈ returned_ids
            (fst (serve [POST_upload one_byte] (started false false)))) as Hin.
  { apply Hclaim. vm_compute. discriminate. }
  vm_compute in Hin. apply elem_of_nil in Hin. exact Hin.
Qed.

(** That run with a PLY request added: 500 for the upload, 503 for the
    render, 404 for the PLY file of the same id. *)
Example disk_full_statuses :
  map status
    (fst (serve [POST_upload one_byte; GET_render "sess-a" 0 0 0 800 600;
                 GET_ply "sess-a"] (started false false)))
  = [500; 503; 404].
Proof. vm_compute. reflexivity. Qed.

(** The same run under the amended reading: the accepted id was stored by
    the one upload of the run. *)
Lemma accepted_session_was_stored_by_upload_witness :
  gaussian_storage (started false false) = ∅
  /\ status (fst (handle (GET_render "sess-a" 0 0 0 800 600)
                   (snd (serve [POST_upload one_byte] (started false false)))))
     <> 404
  /\ exists pre contents post width height f_px g w1,
       [POST_upload one_byte] = pre ++ POST_upload contents :: post
       /\ gaussian_storage (snd (serve pre (started false false))) !! "sess-a"
          = None
       /\ upload_predict contents (snd (serve pre (started false false)))
          = (inr ("sess-a", width, height, f_px, g), w1).
Proof.
  assert (gaussian_storage (started false false) = ∅) as Hempty
    by (vm_compute; reflexivity).
  assert (status (fst (handle (GET_render "sess-a" 0 0 0 800 600)
                         (snd (serve [POST_upload one_byte]
                                 (started false false))))) <> 404) as Hacc
    by (vm_compute; discriminate).
  split; [exact Hempty|]. split; [exact Hacc|].
  exact (proj1 (accepted_session_was_stored_by_upload (started false false)
                  [POST_upload one_byte] (GET_render "sess-a" 0 0 0 800 600)
                  "sess-a" Hempty eq_refl) Hacc).
Defined.

(** An id nobody uploaded, on a machine without CUDA. *)
Lemma render_view_unknown_session_404_witness :
  gaussian_storage (after_upload false true) !! "sess-z" = None
  /\ render_view "sess-z" 0 0 0 800 600 (after_upload false true)
     = (inl (HTTPException 404 "Session not found"), after_upload false true).
Proof.
  assert (gaussian_storage (after_upload false true) !! "sess-z" = None) as Hnone
    by (vm_compute; reflexivity).
  split; [exact Hnone|].
  exact (proj1 (render_view_unknown_session_404 "sess-z" 0 0 0 800 600
                  (after_upload false true) Hnone)).
Defined.

(** The uploaded session on a machine without CUDA. *)
Lemma no_cuda_503_witness :
  gaussian_storage (after_upload false true) !! "sess-a" = Some demo_entry
  /\ cuda_is_available (ext (after_upload false true)) = false
  /\ exists detail,
       generate_video "sess-a" (after_upload false true)
       = (inl (HTTPException 503 detail), after_upload false true).
Proof.
  assert (gaussian_storage (after_upload false true) !! "sess-a"
          = Some demo_entry) as Hsome by (vm_compute; reflexivity).
  assert (cuda_is_available (ext (after_upload false true)) = false) as Hcuda
    by (vm_compute; reflexivity).
  split; [exact Hsome|]. split; [exact Hcuda|].
  exact (proj2 (no_cuda_503 "sess-a" (after_upload false true) demo_entry
                  Hsome Hcuda)).
Defined.

(** The uploaded session on a machine with CUDA and room on disk. *)
Lemma generate_video_120_frames_witness :
  exists r w',
    generate_video "sess-a" (after_upload true true) = (inr r, w')
    /\ exists video_path headers frames evs,
         r = FileResponse video_path "video/mp4" headers
         /\ fs w' !! video_path = Some (FVideo frames)
         /\ length frames = 120%nat
         /\ calls w' = calls (after_upload true true) ++ evs
         /\ frames_added evs = 120%nat.
Proof.
  assert (generate_video "sess-a" (after_upload true true)
          = (inr (FileResponse "/tmp/tmpc.mp4" "video/mp4"
                    [("Content-Disposition",
                      "attachment; filename=" +:+ dquote +:+ "gaussian-rotation-"
                        +:+ "sess-a" +:+ ".mp4" +:+ dquote)]),
             snd (generate_video "sess-a" (after_upload true true)))) as Hrun
    by (vm_compute; reflexivity).
  eexists _, _. split; [exact Hrun|].
  exact (generate_video_120_frames _ _ _ _ Hrun).
Defined.

(** The uploaded session on a machine with CUDA, step 60. *)
Lemma trajectory_quarter_turns_witness :
  gaussian_storage (after_upload true true) !! "sess-a" = Some demo_entry
  /\ cuda_is_available (ext (after_upload true true)) = true
  /\ 0 <= 60 < 120
  /\ generate_video "sess-a" (after_upload true true)
     = generate_video_on_arc "sess-a" (fst demo_entry) (snd demo_entry)
         (after_upload true true)
  /\ trajectory_t 120 60 = inr (arc_t 60)
  /\ PrimFloat.leb (-0.25) (arc_t 60) = true
  /\ PrimFloat.leb (arc_t 60) 0.25 = true.
Proof.
  assert (gaussian_storage (after_upload true true) !! "sess-a"
          = Some (fst demo_entry, snd demo_entry)) as Hsome
    by (vm_compute; reflexivity).
  assert (cuda_is_available (ext (after_upload true true)) = true) as Hcuda
    by (vm_compute; reflexivity).
  assert (0 <= 60 < 120) as Hi by lia.
  split; [exact Hsome|]. split; [exact Hcuda|]. split; [exact Hi|].
  pose proof (trajectory_quarter_turns "sess-a" (after_upload true true)
                (fst demo_entry) (snd demo_entry) 60 Hsome Hcuda Hi)
    as (Harc & _ & Ht & _ & _ & Hlo & Hhi & _).
  split; [exact Harc|]. split; [exact Ht|]. split; [exact Hlo | exact Hhi].
Defined.

(** C6, as worded, fails: with a [uuid.uuid4()] that returns the same value
    twice, the second of two uploads returns the id the first returned. *)
Lemma upload_id_repeats :
  ~ upload_ids_are_fresh (L := repeating) repeating_started
      [POST_upload one_byte] one_byte.
Proof.
  intros Hclaim.
  assert (@upload_image repeating one_byte
            (snd (@serve repeating [POST_upload one_byte] repeating_started))
          = (inr (JSONUpload
                    (mkUploadJson "sess-a" 4 3
                       (@convert_focallength repeating 4 3 30)
                       "/api/ply/sess-a")),
             snd (@upload_image repeating one_byte
                    (snd (@serve repeating [POST_upload one_byte]
                            repeating_started))))) as Hrun
    by (vm_compute; reflexivity).
  apply (Hclaim _ _ Hrun). vm_compute. apply list_elem_of_here.
Qed.

(** Both answers of that run carry the same id. *)
Example repeated_ids :
  returned_ids
    (fst (@serve repeating [POST_upload one_byte; POST_upload one_byte]
            repeating_started))
  = ["sess-a"; "sess-a"].
Proof. vm_compute. reflexivity. Qed.

(** A second upload to the demo server. *)
Lemma upload_returns_drawn_id_and_retrievable_witness :
  exists resp w',
    upload_image one_byte
      (snd (serve [POST_upload one_byte] (started false true)))
    = (inr resp, w')
    /\ exists body pil e1 img e2 p headers,
         resp = JSONUpload body
         /\ Image_open one_byte
              (ext (snd (serve [POST_upload one_byte] (started false true))))
            = (inr pil, e1)
         /\ rgb_array pil e1 = (inr img, e2)
         /\ session_id body = fst (uuid4 e2)
         /\ shape2 img = (height body, width body)
         /\ focal_length body
            = convert_focallength (width body) (height body) 30
         /\ ply_path body = "/api/ply/" +:+ session_id body
         /\ ply_storage w' !! session_id body = Some p
         /\ is_Some (fs w' !! p)
         /\ get_ply (session_id body) w'
            = (inr (FileResponse p "application/octet-stream" headers), w').
Proof.
  assert (upload_image one_byte
            (snd (serve [POST_upload one_byte] (started false true)))
          = (inr (JSONUpload
                    (mkUploadJson "sess-c" 4 3 (convert_focallength 4 3 30)
                       "/api/ply/sess-c")),
             snd (upload_image one_byte
                    (snd (serve [POST_upload one_byte] (started false true))))))
    as Hrun by (vm_compute; reflexivity).
  eexists _, _. split; [exact Hrun|].
  exact (upload_returns_drawn_id_and_retrievable _ _ _ _ _ Hrun).
Defined.


End Instances.

(** ** What every block tolerates *)

Section MonotoneRules.
Context `{L : Sharp} (R : World -> World -> Prop) `{!Monotone R}.

Lemma mono_ret {A} (a : A) : preserves R (ret a).
Proof. intros w. apply mono_refl. Qed.

Lemma mono_raise {A} e : preserves R (@raise _ A e).
Proof. intros w. apply mono_refl. Qed.

Lemma mono_lift {A} (r : exn + A) : preserves R (lift r).
Proof. intros w. apply mono_refl. Qed.

Lemma mono_get : preserves R get.
Proof. intros w. apply mono_refl. Qed.

Lemma mono_path_exists p : preserves R (path_exists p).
Proof. intros w. apply mono_refl. Qed.

Lemma mono_bind {A B} (m : M A) (k : A -> M B) :
  preserves R m -> (forall a, preserves R (k a)) -> preserves R (bind m k).
Proof.
  intros Hm Hk w. unfold bind. specialize (Hm w).
  destruct (m w) as [[e|a] w1]; simpl in *; [exact Hm|].
  eapply mono_trans; [exact Hm | apply Hk].
Qed.

Lemma mono_try {A} (m : M A) (h : exn -> M A) :
  preserves R m -> (forall e, preserves R (h e)) -> preserves R (try_except m h).
Proof.
  intros Hm Hh w. unfold try_except. specialize (Hm w).
  destruct (m w) as [[e|a] w1]; simpl in *; [|exact Hm].
  eapply mono_trans; [exact Hm | apply Hh].
Qed.

Lemma mono_call {A} fn (op : ExtOp Ext A) : preserves R (call fn op).
Proof.
  intros w. unfold call. destruct (op (ext w)) as [r e]. apply mono_ext.
Qed.

Lemma mono_uuid4 : preserves R call_uuid4.
Proof.
  intros w. unfold call_uuid4. destruct (uuid4 (ext w)) as [u e].
  apply mono_ext.
Qed.

Lemma mono_write_file p d : preserves R (write_file p d).
Proof. intros w. apply mono_write. Qed.

Lemma mono_set_device d : preserves R (modify (set_device d)).
Proof. intros w. apply mono_device. Qed.

Lemma mono_set_predictor p : preserves R (modify (set_predictor p)).
Proof. intros w. apply mono_predictor. Qed.

Lemma mono_store_gaussians k v :
  preserves R
    (modify (fun w => set_gaussian_storage (<[k := v]> (gaussian_storage w)) w)).
Proof. intros w. apply mono_gaussian. Qed.

Lemma mono_store_ply k v :
  preserves R (modify (fun w => set_ply_storage (<[k := v]> (ply_storage w)) w)).
Proof. intros w. apply mono_ply. Qed.

End MonotoneRules.

(** One step of a proof that a block is tolerated. *)
Ltac mono_step :=
  lazymatch goal with
  | |- preserves _ (bind _ _) => apply mono_bind; [apply _ | | intros ?]
  | |- preserves _ (try_except _ _) => apply mono_try; [apply _ | | intros ?]
  | |- preserves _ (ret _) => apply mono_ret; apply _
  | |- preserves _ (raise _) => apply mono_raise; apply _
  | |- preserves _ (lift _) => apply mono_lift; apply _
  | |- preserves _ get => apply mono_get; apply _
  | |- preserves _ (path_exists _) => apply mono_path_exists; apply _
  | |- preserves _ (call _ _) => apply mono_call; apply _
  | |- preserves _ call_uuid4 => apply mono_uuid4; apply _
  | |- preserves _ (write_file _ _) => apply mono_write_file; apply _
  | |- preserves _ (modify (set_device _)) => apply mono_set_device; apply _
  | |- preserves _ (modify (set_predictor _)) => apply mono_set_predictor; apply _
  | |- preserves _ (modify (fun w => set_gaussian_storage _ w)) =>
    apply mono_store_gaussians; apply _
  | |- preserves _ (modify (fun w => set_ply_storage _ w)) =>
    apply mono_store_ply; apply _
  | |- preserves _ (match ?x with _ => _ end) => destruct x
  end.

Section MonotoneHandlers.
Context `{L : Sharp} (R : World -> World -> Prop) `{!Monotone R}.

Lemma mono_get_device : preserves R get_device.
Proof. unfold get_device. repeat mono_step. Qed.

Lemma mono_load_model : preserves R load_model.
Proof. unfold load_model. repeat mono_step. apply mono_get_device. Qed.

Lemma mono_predict_image pm image f_px dev :
  preserves R (predict_image pm image f_px dev).
Proof. unfold predict_image. repeat mono_step. Qed.

Lemma mono_upload_image contents : preserves R (upload_image contents).
Proof.
  unfold upload_image, JSONResponse. repeat mono_step.
  apply mono_predict_image.
Qed.

Lemma mono_build_trajectory max_offset n steps :
  forall trajectory, preserves R (build_trajectory max_offset n steps trajectory).
Proof.
  induction steps as [|i steps IH]; intros trajectory; simpl;
    repeat mono_step. apply IH.
Qed.

Lemma mono_render_frames g cm cs dev trajectory :
  forall frames, preserves R (render_frames g cm cs dev trajectory frames).
Proof.
  induction trajectory as [|p trajectory IH]; intros frames; simpl;
    repeat mono_step. apply IH.
Qed.

Lemma mono_handle r : preserves R (handle r).
Proof.
  destruct r; simpl.
  - unfold root. repeat mono_step.
  - unfold check_system. repeat mono_step.
  - unfold get_ply. repeat mono_step.
  - apply mono_upload_image.
  - unfold render_view. repeat mono_step.
  - unfold generate_video. repeat mono_step.
    + apply mono_build_trajectory.
    + apply mono_render_frames.
Qed.

(** Served requests compose what each request tolerates. *)
Lemma mono_serve rs : forall w, R w (snd (serve rs w)).
Proof.
  induction rs as [|r rs IH]; intros w; simpl.
  - apply mono_refl.
  - pose proof (mono_handle r w) as Hr.
    destruct (handle r w) as [res w1]. specialize (IH w1).
    destruct (serve rs w1) as [ress w2]. simpl in *.
    eapply mono_trans; eassumption.
Qed.

End MonotoneHandlers.

Section MonotoneInstances.
Context `{L : Sharp}.

#[export] Instance files_grow_monotone : Monotone files_grow.
Proof.
  split; unfold files_grow; simpl; try (intros; reflexivity).
  - intros w1 w2 w3 H1 H2. set_solver.
  - intros w p d. rewrite dom_insert_L. set_solver.
Qed.

#[export] Instance stores_grow_monotone : Monotone stores_grow.
Proof.
  split; unfold stores_grow; simpl; try (intros; split; reflexivity).
  - intros w1 w2 w3 [H1 H2] [H3 H4]. split; set_solver.
  - intros w k v. rewrite dom_insert_L. split; set_solver.
  - intros w k v. rewrite dom_insert_L. split; set_solver.
Qed.

End MonotoneInstances.

(** ** Further facts about the upload and the server *)

Section MoreSessions.
Context `{L : Sharp}.

Lemma bind_raised {A B} (m : M A) (k : A -> M B) w e w1 :
  m w = (inl e, w1) -> bind m k w = (inl e, w1).
Proof. unfold bind. intros ->. reflexivity. Qed.

Lemma upload_or_other r :
  (exists contents, r = POST_upload contents)
  \/ (forall contents, r <> POST_upload contents).
Proof. destruct r; try (right; intros c; discriminate). left. eauto. Qed.

Lemma call_any {A} fn (op : ExtOp Ext A) w r w' :
  call fn op w = (r, w') ->
  exists e, op (ext w) = (r, e) /\ w' = set_ext e (Lib fn) w.
Proof.
  unfold call. destruct (op (ext w)) as [r0 e]. intros H.
  injection H as -> <-. eauto.
Qed.

Lemma lift_inr {A} (r : exn + A) w a w' :
  lift r w = (inr a, w') -> r = inr a /\ w' = w.
Proof. unfold lift. intros H. injection H as -> <-. auto. Qed.

Lemma get_inr w a w' : get w = (inr a, w') -> a = w /\ w' = w.
Proof. unfold get. intros H. injection H as <- <-. auto. Qed.

Lemma modify_inr f w a w' : modify f w = (inr a, w') -> w' = f w.
Proof. unfold modify. intros H. injection H as _ <-. reflexivity. Qed.

Lemma uuid4_inr w u w' :
  call_uuid4 w = (inr u, w') ->
  u = fst (uuid4 (ext w))
  /\ w' = set_ext (snd (uuid4 (ext w))) (Uuid4 (fst (uuid4 (ext w)))) w.
Proof.
  unfold call_uuid4. destruct (uuid4 (ext w)) as [u0 e]. intros H.
  injection H as <- <-. auto.
Qed.

(** Every route but the upload leaves both dictionaries as they were. *)
Lemma handle_same_stores r w :
  (forall contents, r <> POST_upload contents) ->
  same_stores w (snd (handle r w)).
Proof.
  intros Hr. destruct r.
  - apply (preserves_root same_stores).
  - apply (preserves_check_system same_stores).
  - apply (preserves_get_ply same_stores).
  - exfalso. eapply Hr. reflexivity.
  - apply (preserves_render_view same_stores).
  - apply (preserves_generate_video same_stores).
Qed.

(** What the store-and-export half of the upload leaves, returning or
    raising: the gaussians under the id; the PLY store as it was, or with
    the id bound to a file that is on disk. *)
Lemma upload_store_outcome sid width height f_px g w :
  (ply_storage (snd (upload_store sid width height f_px g w)) = ply_storage w
   \/ exists p,
        ply_storage (snd (upload_store sid width height f_px g w))
        = <[sid := p]> (ply_storage w)
        /\ is_Some (fs (snd (upload_store sid width height f_px g w)) !! p)).
Proof.
  unfold upload_store, bind, modify, write_file, modify, call, JSONResponse,
    raise, ret. simpl.
  destruct (NamedTemporaryFile ".ply" (ext w)) as [[e|p] e1]; simpl;
    [left; reflexivity|].
  destruct (save_ply g f_px (height, width) p e1) as [[e|[]] e2]; simpl;
    [left; reflexivity|].
  right. exists p.
  destruct (PrimFloat.is_nan f_px || PrimFloat.is_infinity f_px); simpl;
    (split; [reflexivity | rewrite lookup_insert_eq; eauto]).
Qed.

(** The state an upload leaves is the state its two halves leave. *)
Lemma upload_image_state contents w :
  snd (upload_image contents w)
  = snd ((x <- upload_predict contents ;;
          let '(sid, width, height, f_px, g) := x in
          upload_store sid width height f_px g) w).
Proof. rewrite upload_image_phases. apply try_raise_snd. Qed.

(** An upload either leaves both dictionaries as they were, or stores
    gaussians under one id and leaves the PLY store as it was or with that
    same id bound to a file on disk. *)
Lemma upload_image_outcome contents w :
  same_stores w (snd (upload_image contents w))
  \/ exists sid entry,
       gaussian_storage (snd (upload_image contents w))
       = <[sid := entry]> (gaussian_storage w)
       /\ (ply_storage (snd (upload_image contents w)) = ply_storage w
           \/ exists p,
                ply_storage (snd (upload_image contents w))
                = <[sid := p]> (ply_storage w)
                /\ is_Some (fs (snd (upload_image contents w)) !! p)).
Proof.
  rewrite upload_image_state. unfold bind.
  pose proof (preserves_upload_predict same_stores contents w) as [Hg Hp].
  destruct (upload_predict contents w)
    as [[e|[[[[sid wd] ht] f] g]] w1]; simpl in *.
  - left. split; assumption.
  - right. exists sid, (g, mkSceneMetaData f (wd, ht) "linearRGB").
    rewrite upload_store_gaussians, Hg. split; [reflexivity|].
    destruct (upload_store_outcome sid wd ht f g w1) as [Hsame|(p & Hins & Hfile)].
    + left. rewrite Hsame. exact Hp.
    + right. exists p. rewrite Hins, Hp. split; [reflexivity | exact Hfile].
Qed.

Lemma handle_ply_has_gaussians r w :
  ply_has_gaussians w -> ply_has_gaussians (snd (handle r w)).
Proof.
  unfold ply_has_gaussians. intros Hinv.
  destruct (upload_or_other r) as [[contents ->]|Hother].
  - simpl.
    destruct (upload_image_outcome contents w)
      as [[Hg Hp]|(sid & entry & Hg & [Hp|(p & Hp & _)])].
    + rewrite Hg, Hp. exact Hinv.
    + rewrite Hg, Hp, dom_insert_L. apply union_subseteq_r'. exact Hinv.
    + rewrite Hg, Hp, !dom_insert_L. apply union_mono_l. exact Hinv.
  - destruct (handle_same_stores r w Hother) as [Hg Hp].
    rewrite Hg, Hp. exact Hinv.
Qed.

Lemma handle_ply_on_disk r w :
  ply_on_disk w -> ply_on_disk (snd (handle r w)).
Proof.
  unfold ply_on_disk. intros Hinv sid q Hq.
  pose proof (mono_handle files_grow r w) as Hfiles. unfold files_grow in Hfiles.
  assert (forall p, is_Some (fs w !! p) -> is_Some (fs (snd (handle r w)) !! p))
    as Hkeep.
  { intros p Hp. apply elem_of_dom. apply Hfiles. apply elem_of_dom. exact Hp. }
  destruct (upload_or_other r) as [[contents ->]|Hother].
  - simpl in *.
    destruct (upload_image_outcome contents w)
      as [[_ Hp]|(sid' & entry & _ & [Hp|(p & Hp & Hfile)])].
    + rewrite Hp in Hq. eauto.
    + rewrite Hp in Hq. eauto.
    + rewrite Hp in Hq. destruct (decide (sid' = sid)) as [->|Hne].
      * rewrite lookup_insert_eq in Hq. injection Hq as <-. exact Hfile.
      * rewrite lookup_insert_ne in Hq by exact Hne. eauto.
  - destruct (handle_same_stores r w Hother) as [_ Hp].
    rewrite Hp in Hq. eauto.
Qed.

(** A property every request keeps is kept by every sequence of requests. *)
Lemma serve_keeps (P : World -> Prop) :
  (forall r w, P w -> P (snd (handle r w))) ->
  forall rs w, P w -> P (snd (serve rs w)).
Proof.
  intros Hstep rs. induction rs as [|r rs IH]; intros w Hw; simpl; [exact Hw|].
  specialize (Hstep r w Hw). destruct (handle r w) as [res w1].
  specialize (IH w1 Hstep). destruct (serve rs w1) as [ress w2]. exact IH.
Qed.

(** [get_ply] answers 200 exactly for an id whose stored path is on disk. *)
Lemma get_ply_200 sid w :
  status (fst (get_ply sid w)) = 200
  <-> exists p, ply_storage w !! sid = Some p /\ is_Some (fs w !! p).
Proof.
  unfold get_ply, bind, get, path_exists, raise, ret.
  destruct (ply_storage w !! sid) as [p|] eqn:Hp; simpl.
  - destruct (fs w !! p) as [d|] eqn:Hd.
    + rewrite bool_decide_eq_true_2 by eauto. simpl.
      split; [intros _; exists p; rewrite Hd; eauto | reflexivity].
    + rewrite bool_decide_eq_false_2 by (intros [? ?]; discriminate). simpl.
      split; [discriminate|]. intros (q & Hq & [d Hd']). congruence.
  - split; [discriminate|]. intros (q & Hq & _). discriminate.
Qed.

End MoreSessions.

(** Invert a run that returned, resolving every primitive step. *)
Ltac run_steps H :=
  repeat first
    [ apply try_inr in H
    | let a := fresh "a" in
      let v := fresh "v" in
      let Hm := fresh "Hm" in
      apply bind_inr in H as (a & v & Hm & H);
      first
        [ apply call_inr in Hm as (? & Hm & ->)
        | apply uuid4_inr in Hm as (-> & ->)
        | apply get_inr in Hm as (-> & ->)
        | apply modify_inr in Hm as ->
        | unfold write_file in Hm; apply modify_inr in Hm as ->
        | apply lift_inr in Hm as (Hm & ->)
        | idtac ]
    | match type of H with
      | raise _ _ = (inr _, _) => discriminate H
      | (match ?x with _ => _ end) _ = _ => destruct x eqn:?
      | (if ?x then _ else _) _ = _ => destruct x eqn:?
      end ].

(** Run a block forward in a hypothesis: split on the outcome of each
    collaborator call, naming the state it leaves. *)
Ltac run_calls H :=
  repeat match type of H with
         | context [call ?fn ?op ?w0] =>
           let Hc := fresh "Hc" in
           destruct (call fn op w0) as [[?|?] ?] eqn:Hc;
           apply call_any in Hc as (? & Hc & ->);
           cbn beta iota in H
         end.

(** ** Further properties of the handlers *)

Section MoreProperties.
Context `{L : Sharp}.

Lemma render_view_accepts sid ex ey ez width height w :
  status (fst (render_view sid ex ey ez width height w)) <> 404 ->
  is_Some (gaussian_storage w !! sid).
Proof.
  intros Hacc. destruct (gaussian_storage w !! sid) eqn:Hlook; [eauto|].
  exfalso. apply Hacc. unfold render_view, bind, get, raise. rewrite Hlook.
  reflexivity.
Qed.

Lemma generate_video_accepts sid w :
  status (fst (generate_video sid w)) <> 404 ->
  is_Some (gaussian_storage w !! sid).
Proof.
  intros Hacc. destruct (gaussian_storage w !! sid) eqn:Hlook; [eauto|].
  exfalso. apply Hacc. unfold generate_video, bind, get, raise. rewrite Hlook.
  reflexivity.
Qed.

(** X1. Sessions are never evicted and temporary files never cleaned up:
    after any sequence of requests every id that was in the gaussian store
    or in the PLY store is still there and every file still exists, so a
    session that /api/render or /api/generate-video accepted (did not
    refuse with 404) is accepted ever after. *)
Theorem sessions_are_never_evicted rs w sid :
  (is_Some (gaussian_storage w !! sid) ->
   is_Some (gaussian_storage (snd (serve rs w)) !! sid))
  /\ (is_Some (ply_storage w !! sid) ->
      is_Some (ply_storage (snd (serve rs w)) !! sid))
  /\ (forall p, is_Some (fs w !! p) -> is_Some (fs (snd (serve rs w)) !! p))
  /\ (forall ex ey ez width height ex' ey' ez' width' height',
        status (fst (render_view sid ex ey ez width height w)) <> 404 ->
        status (fst (render_view sid ex' ey' ez' width' height'
                       (snd (serve rs w)))) <> 404)
  /\ (status (fst (generate_video sid w)) <> 404 ->
      status (fst (generate_video sid (snd (serve rs w)))) <> 404).
Proof.
  pose proof (mono_serve stores_grow rs w) as [Hg Hp].
  pose proof (mono_serve files_grow rs w) as Hf. unfold files_grow in Hf.
  assert (is_Some (gaussian_storage w !! sid) ->
          is_Some (gaussian_storage (snd (serve rs w)) !! sid)) as Hkeep.
  { intros Hin. apply elem_of_dom. apply Hg. apply elem_of_dom. exact Hin. }
  split; [exact Hkeep|]. split.
  { intros Hin. apply elem_of_dom. apply Hp. apply elem_of_dom. exact Hin. }
  split.
  { intros p Hin. apply elem_of_dom. apply Hf. apply elem_of_dom. exact Hin. }
  split.
  - intros ex ey ez width height ex' ey' ez' width' height' Hacc.
    apply render_view_accepts in Hacc. apply Hkeep in Hacc as [entry Hentry].
    apply (stored_session_not_404 sid _ entry Hentry).
  - intros Hacc. apply generate_video_accepts in Hacc.
    apply Hkeep in Hacc as [entry Hentry].
    apply (stored_session_not_404 sid _ entry Hentry).
Qed.

(** X2. Every id in the PLY store is also in the gaussian store, at every
    state the server reaches from one where that holds (the state after
    import, with both stores empty, is one): the upload stores the
    gaussians before the PLY path.  So a session whose PLY file
    /api/ply/{id} returns is never refused with 404 by /api/render or
    /api/generate-video. *)
Theorem downloadable_sessions_are_renderable rs w0 sid :
  ply_has_gaussians w0 ->
  ply_has_gaussians (snd (serve rs w0))
  /\ (status (fst (get_ply sid (snd (serve rs w0)))) = 200 ->
      (forall ex ey ez width height,
         status (fst (render_view sid ex ey ez width height
                        (snd (serve rs w0)))) <> 404)
      /\ status (fst (generate_video sid (snd (serve rs w0)))) <> 404).
Proof.
  intros Hinv0.
  assert (ply_has_gaussians (snd (serve rs w0))) as Hinv
    by (apply serve_keeps; [apply handle_ply_has_gaussians | exact Hinv0]).
  split; [exact Hinv|]. intros Hok.
  apply get_ply_200 in Hok as (p & Hp & _).
  assert (is_Some (gaussian_storage (snd (serve rs w0)) !! sid)) as [entry Hentry].
  { apply elem_of_dom. apply Hinv. apply elem_of_dom. eauto. }
  exact (stored_session_not_404 sid _ entry Hentry).
Qed.

(** X3. As long as nothing but the server touches the files, every stored
    PLY path is a file on disk: from a state where that holds (empty PLY
    store included), after any sequence of requests /api/ply/{id} answers
    200 exactly for the ids in the PLY store, and an id that was
    retrievable stays retrievable. *)
Theorem stored_ply_stays_retrievable rs w0 sid :
  ply_on_disk w0 ->
  ply_on_disk (snd (serve rs w0))
  /\ (status (fst (get_ply sid (snd (serve rs w0)))) = 200
      <-> is_Some (ply_storage (snd (serve rs w0)) !! sid))
  /\ (status (fst (get_ply sid w0)) = 200 ->
      status (fst (get_ply sid (snd (serve rs w0)))) = 200).
Proof.
  intros Hinv0.
  assert (ply_on_disk (snd (serve rs w0))) as Hinv
    by (apply serve_keeps; [apply handle_ply_on_disk | exact Hinv0]).
  assert (status (fst (get_ply sid (snd (serve rs w0)))) = 200
          <-> is_Some (ply_storage (snd (serve rs w0)) !! sid)) as Hiff.
  { rewrite get_ply_200. split.
    - intros (p & Hp & _). eauto.
    - intros [p Hp]. exists p. split; [exact Hp | exact (Hinv sid p Hp)]. }
  split; [exact Hinv|]. split; [exact Hiff|].
  intros Hok. apply Hiff. apply get_ply_200 in Hok as (p & Hp & _).
  pose proof (mono_serve stores_grow rs w0) as [_ Hgrow].
  apply elem_of_dom. apply Hgrow. apply elem_of_dom. eauto.
Qed.

Lemma try_answers {A} (m : M A) (f : exn -> string) w :
  match fst (try_except m (fun e => raise (HTTPException 500 (f e))) w) with
  | inr _ => True
  | inl (HTTPException s _) => s = 500
  | inl (Exception _) => False
  end.
Proof.
  unfold try_except, raise. destruct (m w) as [[e|a] w1]; simpl; auto.
Qed.

(** X4. No route lets an exception other than [HTTPException] escape, and
    each route raises only its own statuses: none for the page and the
    system check, 404 for the PLY download, 500 for the upload, and 404,
    503 or 500 for the render and the video. *)
Theorem routes_answer_their_statuses r w :
  answers (route_statuses r) (fst (handle r w)).
Proof.
  destruct r as [| |sid|contents|sid ex ey ez rw rh|sid]; simpl.
  - exact I.
  - exact I.
  - unfold get_ply, bind, get, path_exists, raise, ret.
    destruct (ply_storage w !! sid) as [p|]; simpl;
      [|apply list_elem_of_here].
    destruct (bool_decide (is_Some (fs w !! p))); simpl;
      [exact I | apply list_elem_of_here].
  - unfold upload_image.
    match goal with |- answers _ (fst (try_except ?m _ w)) =>
      pose proof (try_answers m exn_str w) as H end.
    destruct (fst (try_except _ _ w)) as [[s d|msg]|resp]; simpl in *;
      [subst s; apply list_elem_of_here | contradiction | exact I].
  - unfold render_view. unfold bind at 1. unfold get at 1.
    destruct (gaussian_storage w !! sid) as [[g meta]|]; simpl;
      [|apply list_elem_of_here].
    destruct (negb (cuda_is_available (ext w))); simpl;
      [apply list_elem_of_further, list_elem_of_here|].
    match goal with |- answers _ (fst (try_except ?m _ w)) =>
      pose proof (try_answers m exn_str w) as H end.
    destruct (fst (try_except _ _ w)) as [[s d|msg]|resp]; simpl in *;
      [subst s; do 2 apply list_elem_of_further; apply list_elem_of_here
      | contradiction | exact I].
  - unfold generate_video. unfold bind at 1. unfold get at 1.
    destruct (gaussian_storage w !! sid) as [[g meta]|]; simpl;
      [|apply list_elem_of_here].
    destruct (negb (cuda_is_available (ext w))); simpl;
      [apply list_elem_of_further, list_elem_of_here|].
    match goal with |- answers _ (fst (try_except ?m _ w)) =>
      pose proof (try_answers m exn_str w) as H end.
    destruct (fst (try_except _ _ w)) as [[s d|msg]|resp]; simpl in *;
      [subst s; do 2 apply list_elem_of_further; apply list_elem_of_here
      | contradiction | exact I].
Qed.

(** X5. /api/check and the two renderers read the same
    [torch.cuda.is_available()]: for a stored session, in one and the same
    state, /api/check reports [cuda_available: false] exactly when
    /api/render answers 503 and exactly when /api/generate-video answers
    503; the check itself returns and changes nothing. *)
Theorem check_system_agrees_with_503 sid w entry :
  gaussian_storage w !! sid = Some entry ->
  (exists name,
     check_system w = (inr (JSONCheck (cuda_is_available (ext w)) name), w))
  /\ (forall ex ey ez width height,
        status (fst (render_view sid ex ey ez width height w)) = 503
        <-> exists name, fst (check_system w) = inr (JSONCheck false name))
  /\ (status (fst (generate_video sid w)) = 503
      <-> exists name, fst (check_system w) = inr (JSONCheck false name)).
Proof.
  intros Hsome. destruct entry as [g meta].
  assert ((exists name, fst (check_system w) = inr (JSONCheck false name))
          <-> cuda_is_available (ext w) = false) as Hcheck.
  { unfold check_system, bind, get, ret. simpl. split.
    - intros (name & Hname). injection Hname as Hc _. exact Hc.
    - intros ->. eauto. }
  split; [unfold check_system, bind, get, ret; eauto|]. split.
  - intros ex ey ez width height. rewrite Hcheck.
    unfold render_view. unfold bind at 1. unfold get at 1. rewrite Hsome.
    destruct (cuda_is_available (ext w)); simpl.
    + match goal with |- context [try_except ?m _ w] =>
        pose proof (try_answers m exn_str w) as H end.
      destruct (fst (try_except _ _ w)) as [[s d|msg]|resp]; simpl in *;
        split; try discriminate; try contradiction.
      intros H503. subst s. discriminate.
    + split; reflexivity.
  - rewrite Hcheck.
    unfold generate_video. unfold bind at 1. unfold get at 1. rewrite Hsome.
    destruct (cuda_is_available (ext w)); simpl.
    + match goal with |- context [try_except ?m _ w] =>
        pose proof (try_answers m exn_str w) as H end.
      destruct (fst (try_except _ _ w)) as [[s d|msg]|resp]; simpl in *;
        split; try discriminate; try contradiction.
      intros H503. subst s. discriminate.
    + split; reflexivity.
Qed.

(** [get_device] returns, and changes nothing. *)
Lemma get_device_run w :
  get_device w
  = (inr (if cuda_is_available (ext w) then cuda
          else match mps_is_available (ext w) with
               | Some true => mps
               | Some false | None => cpu
               end), w).
Proof.
  unfold get_device, bind, get, ret.
  destruct (cuda_is_available (ext w)); [reflexivity|].
  destruct (mps_is_available (ext w)) as [[|]|]; reflexivity.
Qed.

(** X6. [load_model] with no predictor resident assigns the global device
    before it downloads: whether it then returns or raises, the device is
    the one [get_device] prefers (CUDA, else MPS, else CPU, also when the
    MPS back end is missing).  When it returns, a predictor is resident and
    the checkpoint download, [create_predictor] and [load_state_dict] were
    each called exactly once; when it raises, no predictor is resident. *)
Theorem load_model_sets_device w r w' :
  predictor w = None ->
  load_model w = (r, w') ->
  exists d,
    device w' = Some d
    /\ (cuda_is_available (ext w) = true -> d = cuda)
    /\ (cuda_is_available (ext w) = false ->
        mps_is_available (ext w) = Some true -> d = mps)
    /\ (cuda_is_available (ext w) = false ->
        mps_is_available (ext w) <> Some true -> d = cpu)
    /\ match r with
       | inr _ =>
         is_Some (predictor w')
         /\ exists evs,
              calls w' = calls w ++ evs
              /\ calls_to "torch.hub.load_state_dict_from_url" evs = 1%nat
              /\ calls_to "create_predictor" evs = 1%nat
              /\ calls_to "load_state_dict" evs = 1%nat
       | inl _ => predictor w' = None
       end.
Proof.
  intros Hp Hrun. unfold load_model in Hrun.
  unfold bind at 1 in Hrun. unfold get at 1 in Hrun. rewrite Hp in Hrun.
  rewrite (bind_run _ _ _ _ _ (get_device_run w)) in Hrun.
  exists (if cuda_is_available (ext w) then cuda
          else match mps_is_available (ext w) with
               | Some true => mps
               | Some false | None => cpu
               end).
  split.
  { unfold bind, modify, try_except, raise, ret in Hrun.
    run_calls Hrun; injection Hrun as _ <-; reflexivity. }
  split; [intros ->; reflexivity|].
  split; [intros -> ->; reflexivity|].
  split.
  { intros -> Hmps. destruct (mps_is_available (ext w)) as [[|]|];
      [contradiction | reflexivity | reflexivity]. }
  unfold bind, modify, try_except, raise, ret in Hrun.
  run_calls Hrun; injection Hrun as <- <-; simpl; rewrite ?Hp;
    try reflexivity.
  split; [eauto|].
  exists [Lib "torch.hub.load_state_dict_from_url"; Lib "create_predictor";
          Lib "load_state_dict"; Lib "eval"; Lib "to"].
  split; [rewrite <- !app_assoc; reflexivity|].
  split; [reflexivity|]. split; reflexivity.
Qed.

(** A returning [predict_image] had a predictor to call, an image with
    columns and rows, and left [predict_image_calls] on record, inference
    once. *)
Lemma predict_image_returned pm image f_px dev w g w' :
  predict_image pm image f_px dev w = (inr g, w') ->
  is_Some pm
  /\ snd (shape2 image) <> 0 /\ fst (shape2 image) <> 0
  /\ calls w' = calls w ++ predict_image_calls.
Proof.
  intros H. unfold predict_image in H. run_steps H.
  apply call_inr in H as (? & _ & ->).
  destruct pm as [p|]; [|discriminate Hm3].
  apply call_inr in Hm3 as (? & _ & ->).
  split; [eauto|]. simpl. split.
  { intros ->. unfold int_truediv in Hm8. simpl in Hm8. discriminate Hm8. }
  split.
  { intros ->. unfold int_truediv in Hm10. simpl in Hm10. discriminate Hm10. }
  rewrite <- !app_assoc. reflexivity.
Qed.

(** X7. An upload that fails before the store step is atomic: whatever
    raises while decoding, drawing the id or predicting, the answer is 500
    with the text of that exception and both stores are as before.  In
    particular, bytes that [Image.open] cannot decode are answered 500 with
    the decoder's message after that single library call: no session id is
    drawn, no inference runs, no file is written. *)
Theorem upload_fails_before_store contents w :
  (forall e w1,
     upload_predict contents w = (inl e, w1) ->
     upload_image contents w = (inl (HTTPException 500 (exn_str e)), w1)
     /\ same_stores w w1)
  /\ (forall e e1,
        Image_open contents (ext w) = (inl e, e1) ->
        upload_image contents w
        = (inl (HTTPException 500 (exn_str e)), set_ext e1 (Lib "Image.open") w)).
Proof.
  assert (forall e w1,
     upload_predict contents w = (inl e, w1) ->
     upload_image contents w = (inl (HTTPException 500 (exn_str e)), w1))
    as Hfail.
  { intros e w1 Hpred. rewrite upload_image_phases. unfold try_except.
    rewrite (bind_raised _ _ _ _ _ Hpred). reflexivity. }
  split.
  - intros e w1 Hpred. split; [exact (Hfail e w1 Hpred)|].
    pose proof (preserves_upload_predict same_stores contents w) as Hsame.
    rewrite Hpred in Hsame. exact Hsame.
  - intros e e1 Hopen. apply Hfail. unfold upload_predict.
    apply bind_raised. unfold call. rewrite Hopen. reflexivity.
Qed.

(** X8. An upload to a server whose model was never loaded (the global
    device is unset) is answered 500 with the text of the wrapped
    "Device not initialized" exception.  The image has then been decoded
    and a session id drawn, but no inference ran and nothing was stored or
    written: the state differs only in the collaborators' state and the
    three calls on record. *)
Theorem upload_without_device contents w pil e1 img e2 :
  device w = None ->
  Image_open contents (ext w) = (inr pil, e1) ->
  rgb_array pil e1 = (inr img, e2) ->
  upload_image contents w
  = (inl (HTTPException 500 (http_exception_str 500 "Device not initialized")),
     mkWorld (predictor w) None (gaussian_storage w) (ply_storage w) (fs w)
       (snd (uuid4 e2))
       (calls w ++ [Lib "Image.open"; Lib "np.array"; Uuid4 (fst (uuid4 e2))])).
Proof.
  intros Hdev Hopen Hrgb.
  unfold upload_image, try_except, bind, call, call_uuid4, get, raise.
  rewrite Hopen. simpl. rewrite Hrgb. simpl.
  destruct (shape2 img) as [ht wd]. simpl. destruct (uuid4 e2) as [u e3]. simpl.
  rewrite Hdev. unfold set_ext. simpl. rewrite Hdev, <- !app_assoc. reflexivity.
Qed.

(** X9. What a returning upload stored is what it reports: under the
    reported session id the gaussian store holds the metadata of the
    reported focal length and (width, height) in linearRGB, the PLY store
    holds the path of a file written with those gaussians for the shape
    (height, width); every other session is untouched in both stores.  The
    model and device were loaded, the image had columns and rows, the
    request decoded once, ran the predictor once, called [save_ply] once,
    and drew one uuid, the reported id. *)
Theorem upload_stores_what_it_reports contents w body w' :
  upload_image contents w = (inr (JSONUpload body), w') ->
  (exists g p,
     gaussian_storage w' !! session_id body
     = Some (g, mkSceneMetaData (focal_length body) (width body, height body)
                  "linearRGB")
     /\ ply_storage w' !! session_id body = Some p
     /\ fs w' !! p = Some (FPly g (focal_length body) (height body, width body)))
  /\ (forall sid, sid <> session_id body ->
        gaussian_storage w' !! sid = gaussian_storage w !! sid
        /\ ply_storage w' !! sid = ply_storage w !! sid)
  /\ is_Some (predictor w) /\ is_Some (device w)
  /\ width body <> 0 /\ height body <> 0
  /\ exists evs,
       calls w' = calls w ++ evs
       /\ calls_to "Image.open" evs = 1%nat
       /\ calls_to "predictor" evs = 1%nat
       /\ calls_to "save_ply" evs = 1%nat
       /\ drawn evs = [session_id body].
Proof.
  intros H. unfold upload_image in H. run_steps H.
  unfold JSONResponse in H. simpl in H.
  destruct (PrimFloat.is_nan _ || PrimFloat.is_infinity _); [discriminate H|].
  injection H as <- <-. simpl in *.
  lazymatch type of Hm1 with
  | predict_image ?pm ?img ?f ?d ?w0 = _ =>
    pose proof (preserves_predict_image same_stores pm img f d w0) as Hsame
  end.
  rewrite Hm1 in Hsame. destruct Hsame as [Hg Hp]. simpl in Hg, Hp.
  apply predict_image_returned in Hm1 as (Hpm & Hwd & Hht & Hcalls).
  rewrite Heqp in Hwd, Hht. simpl in Hwd, Hht, Hcalls.
  split.
  { do 2 eexists. rewrite !lookup_insert_eq. eauto. }
  split.
  { intros sid Hne. rewrite !lookup_insert_ne by congruence.
    rewrite Hg, Hp. split; reflexivity. }
  split; [exact Hpm|]. split; [eauto|]. split; [exact Hwd|]. split; [exact Hht|].
  eexists ([Lib "Image.open"; Lib "np.array"; Uuid4 _] ++ predict_image_calls
           ++ [Lib "tempfile.NamedTemporaryFile"; Lib "save_ply"]).
  split; [rewrite Hcalls, <- !app_assoc; reflexivity|].
  split; [reflexivity|]. split; [reflexivity|]. split; reflexivity.
Qed.

(** X10. [predict_image] never returns for an array with no columns or no
    rows: the scaling of the intrinsics divides the internal shape by the
    width and by the height, so it raises, at the latest there.  An upload
    whose image decodes to such an array is therefore answered 500 and
    leaves both stores as they were. *)
Theorem predict_image_rejects_empty_image image :
  snd (shape2 image) = 0 \/ fst (shape2 image) = 0 ->
  (forall pm f_px dev w,
     exists e w', predict_image pm image f_px dev w = (inl e, w'))
  /\ (forall contents w pil e1 e2,
        Image_open contents (ext w) = (inr pil, e1) ->
        rgb_array pil e1 = (inr image, e2) ->
        status (fst (upload_image contents w)) = 500
        /\ same_stores w (snd (upload_image contents w))).
Proof.
  intros Hzero.
  assert (forall pm f_px dev w,
     exists e w', predict_image pm image f_px dev w = (inl e, w')) as Hraise.
  { intros pm f_px dev w.
    destruct (predict_image pm image f_px dev w) as [[e|g] w'] eqn:Hrun; [eauto|].
    exfalso. apply predict_image_returned in Hrun as (_ & Hwd & Hht & _).
    destruct Hzero; contradiction. }
  split; [exact Hraise|].
  intros contents w pil e1 e2 Hopen Hrgb.
  destruct (upload_predict contents w) as [[e|x] w1] eqn:Hpred.
  - pose proof (preserves_upload_predict same_stores contents w) as Hsame.
    rewrite Hpred in Hsame. rewrite upload_image_phases. unfold try_except.
    rewrite (bind_raised _ _ _ _ _ Hpred). split; [reflexivity | exact Hsame].
  - exfalso. unfold upload_predict in Hpred. run_steps Hpred.
    rewrite Hopen in Hm. injection Hm as <- <-. simpl in Hm0.
    rewrite Hrgb in Hm0. injection Hm0 as <- <-.
    destruct (Hraise (predictor w) (convert_focallength z0 z 30) d
                (set_ext (uuid4 (ext (set_ext e2 (Lib "np.array")
                                        (set_ext e1 (Lib "Image.open") w)))).2
                   (Uuid4 (uuid4 (ext (set_ext e2 (Lib "np.array")
                                         (set_ext e1 (Lib "Image.open") w)))).1)
                   (set_ext e2 (Lib "np.array")
                      (set_ext e1 (Lib "Image.open") w))))
      as (e & w' & Hfail).
    simpl in Hm1. simpl in Hfail. rewrite Hfail in Hm1. discriminate Hm1.
Qed.

(** X11. A returning /api/render needed a stored session and CUDA; it
    invoked the renderer once and [save_image] once and drew one uuid, and
    it answers with the PNG file response, not cached, of
    <tempdir>/sharp_render_<that uuid>.png, a file that is on disk
    afterwards. *)
Theorem render_view_writes_one_png sid ex ey ez width height w resp w' :
  render_view sid ex ey ez width height w = (inr resp, w') ->
  exists u image evs,
    resp = FileResponse (gettempdir +:+ "/sharp_render_" +:+ u +:+ ".png")
             "image/png" [("Cache-Control", "no-cache")]
    /\ fs w' !! (gettempdir +:+ "/sharp_render_" +:+ u +:+ ".png")
       = Some (FPng image)
    /\ is_Some (gaussian_storage w !! sid)
    /\ cuda_is_available (ext w) = true
    /\ calls w' = calls w ++ evs
    /\ calls_to "renderer" evs = 1%nat
    /\ calls_to "save_image" evs = 1%nat
    /\ drawn evs = [u].
Proof.
  intros H. unfold render_view in H. run_steps H.
  unfold ret in H. injection H as <- <-.
  eexists _, _,
    [Lib "torch.tensor"; Lib "create_camera_model"; Lib "torch.tensor";
     Lib "compute"; Lib "GSplatRenderer"; Lib "to"; Lib "to"; Lib "to";
     Lib "renderer"; Lib "numpy"; Uuid4 _; Lib "save_image"].
  split; [reflexivity|]. simpl. split; [apply lookup_insert_eq|].
  split; [eauto|]. split.
  { destruct (cuda_is_available (ext w)); [reflexivity | discriminate]. }
  split; [rewrite <- !app_assoc; reflexivity|].
  split; [reflexivity|]. split; reflexivity.
Qed.

(** A returning first loop made one tensor call per step and touched no
    file. *)
Lemma build_trajectory_trace max_offset n steps :
  forall trajectory w out w',
    build_trajectory max_offset n steps trajectory w = (inr out, w') ->
    calls w' = calls w ++ replicate (length steps) (Lib "torch.tensor")
    /\ fs w' = fs w.
Proof.
  induction steps as [|i steps IH]; intros trajectory w out w' H; simpl in H.
  - injection H as _ <-. simpl. rewrite app_nil_r. auto.
  - run_steps H. apply IH in H as [Hc Hf]. rewrite Hc, Hf. simpl.
    rewrite <- app_assoc. auto.
Qed.

(** A returning second loop left [frame_calls] on record per position
    and touched no file. *)
Lemma render_frames_trace g cm cs dev trajectory :
  forall frames w out w',
    render_frames g cm cs dev trajectory frames w = (inr out, w') ->
    calls w'
    = calls w ++ List.concat (replicate (length trajectory) frame_calls)
    /\ fs w' = fs w.
Proof.
  induction trajectory as [|p trajectory IH]; intros frames w out w' H;
    simpl in H.
  - injection H as _ <-. simpl. rewrite app_nil_r. auto.
  - run_steps H. apply IH in H as [Hc Hf]. rewrite Hc, Hf. simpl.
    rewrite <- !app_assoc. auto.
Qed.

(** X12. A returning /api/generate-video needed a stored session and
    CUDA; it called [compute_max_offset] once, created one temporary file,
    opened one video writer and closed it once, and for the 120 steps
    called [camera_model.compute] 120 times and the renderer 120 times. *)
Theorem generate_video_call_counts sid w resp w' :
  generate_video sid w = (inr resp, w') ->
  is_Some (gaussian_storage w !! sid)
  /\ cuda_is_available (ext w) = true
  /\ exists evs,
       calls w' = calls w ++ evs
       /\ calls_to "compute_max_offset" evs = 1%nat
       /\ calls_to "tempfile.NamedTemporaryFile" evs = 1%nat
       /\ calls_to "VideoWriter" evs = 1%nat
       /\ calls_to "compute" evs = 120%nat
       /\ calls_to "renderer" evs = 120%nat
       /\ calls_to "close" evs = 1%nat.
Proof.
  intros H. unfold generate_video in H. run_steps H.
  unfold ret in H. injection H as _ <-.
  pose proof (build_trajectory_length _ _ _ _ _ _ _ Hm0) as Hlen0.
  rewrite length_seqZ in Hlen0. simpl in Hlen0.
  apply render_frames_trace in Hm7 as [Hm7 _].
  apply build_trajectory_trace in Hm0 as [Hm0 _].
  rewrite length_seqZ in Hm0. rewrite Hlen0 in Hm7.
  split; [eauto|]. split.
  { destruct (cuda_is_available (ext w)); [reflexivity | discriminate]. }
  exists ([Lib "compute_max_offset"] ++ replicate 120 (Lib "torch.tensor")
          ++ [Lib "tempfile.NamedTemporaryFile"; Lib "torch.tensor";
              Lib "create_camera_model"; Lib "GSplatRenderer";
              Lib "VideoWriter"]
          ++ List.concat (replicate 120 frame_calls) ++ [Lib "close"]).
  split.
  { simpl calls. rewrite Hm7. simpl calls. rewrite Hm0. simpl calls.
    rewrite <- !app_assoc. reflexivity. }
  repeat split; vm_compute; reflexivity.
Qed.

(** An upload leaves the gaussian store as it was or adds, under one id,
    an entry in linearRGB whose focal length is [convert_focallength] of
    its width and height at 30. *)
Lemma upload_image_entry contents w :
  gaussian_storage (snd (upload_image contents w)) = gaussian_storage w
  \/ exists sid g width height,
       gaussian_storage (snd (upload_image contents w))
       = <[sid := (g, mkSceneMetaData (convert_focallength width height 30)
                        (width, height) "linearRGB")]> (gaussian_storage w).
Proof.
  rewrite upload_image_state. unfold bind.
  pose proof (preserves_upload_predict same_stores contents w) as [Hg _].
  destruct (upload_predict contents w)
    as [[e|[[[[sid wd] ht] f] g]] w1] eqn:Hpred; simpl in *.
  - left. exact Hg.
  - right. exists sid, g, wd, ht.
    apply upload_predict_returned in Hpred as (_ & -> & _).
    rewrite upload_store_gaussians, Hg. reflexivity.
Qed.

Lemma handle_sessions_as_uploaded r w :
  sessions_as_uploaded w -> sessions_as_uploaded (snd (handle r w)).
Proof.
  unfold sessions_as_uploaded. intros Hinv sid g meta Hlook.
  destruct (upload_or_other r) as [[contents ->]|Hother].
  - simpl in Hlook.
    destruct (upload_image_entry contents w)
      as [Hg|(sid' & g' & wd & ht & Hg)]; rewrite Hg in Hlook.
    + eauto.
    + destruct (decide (sid' = sid)) as [->|Hne].
      * rewrite lookup_insert_eq in Hlook. injection Hlook as <- <-.
        split; reflexivity.
      * rewrite lookup_insert_ne in Hlook by exact Hne. eauto.
  - destruct (handle_same_stores r w Hother) as [Hg _].
    rewrite Hg in Hlook. eauto.
Qed.

(** X13. On a server that started with no session, after any sequence of
    requests every stored session is in the linearRGB colour space and has
    the focal length [convert_focallength(width, height, 30.0)] of its own
    stored resolution (width, height): only the upload writes the store,
    and always in that form. *)
Theorem stored_sessions_are_as_uploaded rs w0 sid g meta :
  sessions_as_uploaded w0 ->
  gaussian_storage (snd (serve rs w0)) !! sid = Some (g, meta) ->
  color_space meta = "linearRGB"
  /\ focal_length_px meta
     = convert_focallength (fst (resolution_px meta))
         (snd (resolution_px meta)) 30.
Proof.
  intros Hinv0 Hlook.
  assert (sessions_as_uploaded (snd (serve rs w0))) as Hinv
    by (apply serve_keeps; [apply handle_sessions_as_uploaded | exact Hinv0]).
  exact (Hinv sid g meta Hlook).
Qed.

End MoreProperties.

(** ** The further properties on the small instance *)

Section MoreInstances.
Import Demo.

Lemma started_gaussian_storage gpu room : gaussian_storage (started gpu room) = ∅.
Proof. destruct gpu, room; vm_compute; reflexivity. Qed.

Lemma started_ply_storage gpu room : ply_storage (started gpu room) = ∅.
Proof. destruct gpu, room; vm_compute; reflexivity. Qed.

(** One upload served by a started server without CUDA. *)
Lemma downloadable_sessions_are_renderable_witness :
  ply_has_gaussians (started false true)
  /\ ply_has_gaussians (snd (serve [POST_upload one_byte] (started false true))).
Proof.
  assert (ply_has_gaussians (started false true)) as Hinv.
  { unfold ply_has_gaussians. rewrite started_ply_storage, dom_empty_L.
    apply empty_subseteq. }
  split; [exact Hinv|].
  exact (proj1 (downloadable_sessions_are_renderable [POST_upload one_byte]
                  (started false true) "sess-a" Hinv)).
Defined.

(** The same run: the uploaded PLY file is retrievable. *)
Lemma stored_ply_stays_retrievable_witness :
  ply_on_disk (started false true)
  /\ ply_on_disk (snd (serve [POST_upload one_byte] (started false true))).
Proof.
  assert (ply_on_disk (started false true)) as Hinv.
  { intros sid p Hp. rewrite started_ply_storage, lookup_empty in Hp.
    discriminate Hp. }
  split; [exact Hinv|].
  exact (proj1 (stored_ply_stays_retrievable [POST_upload one_byte]
                  (started false true) "sess-a" Hinv)).
Defined.

(** The uploaded session on a machine without CUDA: the check says so. *)
Lemma check_system_agrees_with_503_witness :
  gaussian_storage (after_upload false true) !! "sess-a" = Some demo_entry
  /\ exists name,
       check_system (after_upload false true)
       = (inr (JSONCheck (cuda_is_available (ext (after_upload false true)))
                 name),
          after_upload false true).
Proof.
  assert (gaussian_storage (after_upload false true) !! "sess-a"
          = Some demo_entry) as Hsome by (vm_compute; reflexivity).
  split; [exact Hsome|].
  exact (proj1 (check_system_agrees_with_503 "sess-a" (after_upload false true)
                  demo_entry Hsome)).
Defined.

(** Start-up on a machine without CUDA or MPS: the CPU. *)
Lemma load_model_sets_device_witness :
  predictor (not_started) = None
  /\ exists r w',
       load_model (not_started) = (r, w')
       /\ exists d, device w' = Some d
            /\ (cuda_is_available (ext (not_started))
                = false ->
                mps_is_available (ext (not_started))
                <> Some true ->
                d = cpu).
Proof.
  assert (load_model (not_started)
          = (inr tt, snd (load_model (not_started))))
    as Hrun by (vm_compute; reflexivity).
  split; [reflexivity|]. eexists _, _. split; [exact Hrun|].
  destruct (load_model_sets_device (not_started) _ _
              eq_refl Hrun) as (d & Hd & _ & _ & Hcpu & _).
  exists d. split; [exact Hd | exact Hcpu].
Defined.

(** An upload before start-up. *)
Lemma upload_without_device_witness :
  device (not_started) = None
  /\ status (fst (upload_image one_byte (not_started))) = 500.
Proof.
  split; [reflexivity|].
  rewrite (upload_without_device one_byte (not_started)
             (4, 3) (machine false true) (3, 4) (machine false true)
             eq_refl eq_refl eq_refl).
  reflexivity.
Defined.

(** The first upload to a started server. *)
Lemma upload_stores_what_it_reports_witness :
  exists body w',
    upload_image one_byte (started false true) = (inr (JSONUpload body), w')
    /\ is_Some (predictor (started false true))
    /\ width body <> 0 /\ height body <> 0.
Proof.
  assert (upload_image one_byte (started false true)
          = (inr (JSONUpload
                    (mkUploadJson "sess-a" 4 3 (convert_focallength 4 3 30)
                       "/api/ply/sess-a")),
             snd (upload_image one_byte (started false true)))) as Hrun
    by (vm_compute; reflexivity).
  eexists _, _. split; [exact Hrun|].
  destruct (upload_stores_what_it_reports _ _ _ _ Hrun)
    as (_ & _ & Hpm & _ & Hwd & Hht & _).
  split; [exact Hpm|]. split; [exact Hwd | exact Hht].
Defined.

(** An array of three rows and no columns. *)
Lemma predict_image_rejects_empty_image_witness :
  snd (shape2 ((3, 0) : NDArray)) = 0
  /\ exists e w',
       predict_image (Some tt) ((3, 0) : NDArray) 1%float cpu
         (started false true)
       = (inl e, w').
Proof.
  assert (snd (shape2 ((3, 0) : NDArray)) = 0) as Hzero by reflexivity.
  split; [exact Hzero|].
  exact (proj1 (predict_image_rejects_empty_image ((3, 0) : NDArray)
                  (or_introl Hzero))
           (Some tt) 1%float cpu (started false true)).
Defined.

(** A render of the uploaded session on a machine with CUDA. *)
Lemma render_view_writes_one_png_witness :
  exists resp w',
    render_view "sess-a" 0 0 0 800 600 (after_upload true true) = (inr resp, w')
    /\ exists u image,
         resp = FileResponse (gettempdir +:+ "/sharp_render_" +:+ u +:+ ".png")
                  "image/png" [("Cache-Control", "no-cache")]
         /\ fs w' !! (gettempdir +:+ "/sharp_render_" +:+ u +:+ ".png")
            = Some (FPng image).
Proof.
  assert (render_view "sess-a" 0 0 0 800 600 (after_upload true true)
          = (inr (FileResponse "/tmp/sharp_render_sess-c.png" "image/png"
                    [("Cache-Control", "no-cache")]),
             snd (render_view "sess-a" 0 0 0 800 600 (after_upload true true))))
    as Hrun by (vm_compute; reflexivity).
  eexists _, _. split; [exact Hrun|].
  destruct (render_view_writes_one_png _ _ _ _ _ _ _ _ _ Hrun)
    as (u & image & evs & Hresp & Hfs & _).
  exists u, image. split; [exact Hresp | exact Hfs].
Defined.

(** A video of the uploaded session on a machine with CUDA. *)
Lemma generate_video_call_counts_witness :
  exists resp w',
    generate_video "sess-a" (after_upload true true) = (inr resp, w')
    /\ exists evs,
         calls w' = calls (after_upload true true) ++ evs
         /\ calls_to "renderer" evs = 120%nat.
Proof.
  assert (generate_video "sess-a" (after_upload true true)
          = (inr (FileResponse "/tmp/tmpc.mp4" "video/mp4"
                    [("Content-Disposition",
                      "attachment; filename=" +:+ dquote +:+ "gaussian-rotation-"
                        +:+ "sess-a" +:+ ".mp4" +:+ dquote)]),
             snd (generate_video "sess-a" (after_upload true true)))) as Hrun
    by (vm_compute; reflexivity).
  eexists _, _. split; [exact Hrun|].
  destruct (generate_video_call_counts _ _ _ _ Hrun)
    as (_ & _ & evs & Hcalls & _ & _ & _ & _ & Hrender & _).
  exists evs. split; [exact Hcalls | exact Hrender].
Defined.

(** The session the demo upload stored. *)
Lemma stored_sessions_are_as_uploaded_witness :
  sessions_as_uploaded (started false true)
  /\ gaussian_storage (snd (serve [POST_upload one_byte] (started false true)))
       !! "sess-a" = Some demo_entry
  /\ color_space (snd demo_entry) = "linearRGB".
Proof.
  assert (sessions_as_uploaded (started false true)) as Hinv.
  { intros sid g meta Hlook.
    rewrite started_gaussian_storage, lookup_empty in Hlook. discriminate Hlook. }
  assert (gaussian_storage
            (snd (serve [POST_upload one_byte] (started false true)))
            !! "sess-a" = Some demo_entry) as Hlook by (vm_compute; reflexivity).
  split; [exact Hinv|]. split; [exact Hlook|].
  exact (proj1 (stored_sessions_are_as_uploaded [POST_upload one_byte]
                  (started false true) "sess-a" (fst demo_entry) (snd demo_entry)
                  Hinv Hlook)).
Defined.

End MoreInstances.
